(** * bun-fetch-mock: the mock registry and its dispatch function

    A shallow embedding of [class FetchMock] (index.ts) together with the
    properties of registration, dispatch, reset and verification.

    The embedding follows the revision of index.ts that contains
    [joinBaseUrl] and upper-cases the request method in [fetchMock].  The
    earlier revision of the same file differs in exactly those two places;
    it is embedded in [Module Rev0] at the end of the definitions and compared
    with the current one.

    Conventions of the model:
    - a JavaScript string is a [string]; [toUpperCase] maps a-z to A-Z and
      leaves every other character alone, which is the function of the code
      on ASCII text ([ascii_text]) and only there: statements that depend on
      the upper-casing of arbitrary input carry that restriction;
    - a JavaScript [Map] is an association list in insertion order with
      unique keys ([Module JsMap]); a header record is a [gmap string string]
      (its order is not observable to the registry);
    - numbers and JSON payloads are carried, never computed on;
    - [Response] and [Response.json] are constructors: the registry only
      chooses their arguments.  Whether the host accepts them (it refuses,
      for one, a status outside its range) is not modelled, so a run that
      returns stands for a run of the code that reaches its [return];
    - a method body is a computation in a state-and-exception monad over the
      fields of the class instance. *)

From Stdlib Require Import ZArith Ascii String List Bool Lia.
From stdpp Require Import base option list strings gmap fin_maps.

Import ListNotations.
Local Open Scope string_scope.
Local Open Scope list_scope.

(** ** JavaScript strings *)

Module JsString.

(** [s.startsWith(p)] *)
Definition startsWith (s p : string) : bool := String.prefix p s.

(** [s.slice(0, -1)] *)
Definition slice_0_m1 (s : string) : string :=
  String.substring 0 (String.length s - 1) s.

(** [s.endsWith(p)] *)
Definition endsWith (s p : string) : bool :=
  if Nat.leb (String.length p) (String.length s)
  then String.eqb
         (String.substring (String.length s - String.length p)
                           (String.length p) s) p
  else false.

Definition upper_char (c : ascii) : ascii :=
  let n := nat_of_ascii c in
  if Nat.leb 97 n && Nat.leb n 122 then ascii_of_nat (n - 32) else c.

(** [s.toUpperCase()], exact on ASCII text.  The host also maps characters
    outside ASCII (some of them to ASCII capitals); those are left alone
    here. *)
Fixpoint toUpperCase (s : string) : string :=
  match s with
  | EmptyString => EmptyString
  | String c s' => String (upper_char c) (toUpperCase s')
  end.

(** [l.join(sep)] *)
Fixpoint join (sep : string) (l : list string) : string :=
  match l with
  | [] => ""
  | [x] => x
  | x :: rest => x ++ sep ++ join sep rest
  end.

(** Truthiness of a string: every string but the empty one. *)
Definition truthy (s : string) : bool :=
  match s with EmptyString => false | _ => true end.

End JsString.

Export JsString.

(** ** JavaScript values carried by the registry *)

(** A runtime value: what an argument typed [UrlOrPath] or a [data] payload
    can be when the call is made.  [JUndefined] also stands for an absent
    property. *)
#[local] Set Warnings "-register-all".
Inductive JsValue : Type :=
| JUndefined
| JNull
| JBool (b : bool)
| JNum (n : Z)
| JStr (s : string)
| JArr (items : list JsValue)
| JObj (fields : list (string * JsValue)).
#[local] Set Warnings "register-all".

(** [!v] is [negb (js_truthy v)]. *)
Definition js_truthy (v : JsValue) : bool :=
  match v with
  | JUndefined | JNull => false
  | JBool b => b
  | JNum n => negb (Z.eqb n 0)
  | JStr s => truthy s
  | JArr _ | JObj _ => true
  end.

(** [typeof v === "string"] *)
Definition typeof_string (v : JsValue) : bool :=
  match v with JStr _ => true | _ => false end.

(** The string behind a value that passed [typeof_string]. *)
Definition as_string (v : JsValue) : string :=
  match v with JStr s => s | _ => "" end.

(** [type HttpMethod] *)
Inductive HttpMethod : Type := GET | POST | PUT | DELETE | PATCH | HEAD | OPTIONS.

Definition method_name (m : HttpMethod) : string :=
  match m with
  | GET => "GET" | POST => "POST" | PUT => "PUT" | DELETE => "DELETE"
  | PATCH => "PATCH" | HEAD => "HEAD" | OPTIONS => "OPTIONS"
  end.

Definition DEFAULT_METHOD : string := "GET".

(** [interface MockOpts]: every property is optional. *)
Record MockOpts : Type := mkMockOpts {
  data : JsValue;
  status : option Z;
  headers : option (gmap string string);
  statusText : option string;
  once : option bool
}.

(** [{...undefined}]: the options of a registration made without any. *)
Definition no_opts : MockOpts :=
  {| data := JUndefined; status := None; headers := None;
     statusText := None; once := None |}.

(** [{ isUsed: boolean } & MockOpts], the value type of both tables. *)
Record MockEntry : Type := mkEntry {
  entry_opts : MockOpts;
  isUsed : bool
}.

Definition set_used (e : MockEntry) : MockEntry :=
  {| entry_opts := entry_opts e; isUsed := true |}.

(** [RequestInit], of which only [method] is read. *)
Record RequestInit : Type := mkInit { req_method : option string }.

(** The second argument of [new Response] and of [Response.json]. *)
Record ResponseInit : Type := mkResponseInit {
  init_status : Z;
  init_headers : gmap string string;
  init_statusText : string
}.

Inductive Response : Type :=
| NewResponse (body : option string) (init : ResponseInit)
| ResponseJson (payload : JsValue) (init : ResponseInit).

Definition response_init (r : Response) : ResponseInit :=
  match r with NewResponse _ i => i | ResponseJson _ i => i end.

(** What a [throw] carries: an [Error] built by the class, or the failure of
    a bun:test expectation with its label. *)
Inductive Exn : Type :=
| Error (message : string)
| ExpectFailed (label : string).

(** ** Insertion-ordered maps *)

Module JsMap.
Section Ops.
Context {V : Type}.

(** [m.get(k)] *)
Fixpoint get (k : string) (m : list (string * V)) : option V :=
  match m with
  | [] => None
  | (k', v) :: m' => if decide (k = k') then Some v else get k m'
  end.

(** [m.has(k)] *)
Definition has (k : string) (m : list (string * V)) : bool :=
  match get k m with Some _ => true | None => false end.

(** [m.set(k, v)]: an existing key keeps its place, a new one goes last. *)
Fixpoint set (k : string) (v : V) (m : list (string * V)) : list (string * V) :=
  match m with
  | [] => [(k, v)]
  | (k', v') :: m' =>
      if decide (k = k') then (k', v) :: m' else (k', v') :: set k v m'
  end.

(** [m.delete(k)] *)
Fixpoint delete (k : string) (m : list (string * V)) : list (string * V) :=
  match m with
  | [] => []
  | (k', v') :: m' =>
      if decide (k = k') then delete k m' else (k', v') :: delete k m'
  end.

(** [Array.from(m.keys())] *)
Definition keys (m : list (string * V)) : list string := map fst m.

(** The keys of a [Map] are pairwise distinct. *)
Definition ok (m : list (string * V)) : Prop := NoDup (keys m).
End Ops.
End JsMap.

(** ** The class instance and the monad of its methods *)

(** The fields of a [FetchMock] instance. *)
Record FetchMock : Type := mkFetchMock {
  baseUrl : string;
  mocks : list (string * MockEntry);
  mockQueue : list (string * list MockEntry)
}.

Inductive Outcome (A : Type) : Type :=
| Returned (a : A)
| Thrown (e : Exn).
Arguments Returned {A} a.
Arguments Thrown {A} e.

(** A method body: it reads and writes [this], and returns or throws. *)
Definition M (A : Type) : Type := FetchMock -> Outcome A * FetchMock.

Definition ret {A} (a : A) : M A := fun this => (Returned a, this).

Definition throw {A} (e : Exn) : M A := fun this => (Thrown e, this).

Definition bind {A B} (m : M A) (k : A -> M B) : M B :=
  fun this =>
    match m this with
    | (Returned a, this') => k a this'
    | (Thrown e, this') => (Thrown e, this')
    end.

Notation "'let*' x ':=' m 'in' k" := (bind m (fun x => k))
  (at level 10, x name, m at level 100, k at level 200, only parsing).
Notation "m ';;' k" := (bind m (fun _ => k))
  (at level 100, k at level 200, right associativity, only parsing).

(** Reads and writes of the two tables of [this]. *)
Definition read {A} (f : FetchMock -> A) : M A := fun this => (Returned (f this), this).

Definition write_mocks (f : list (string * MockEntry) -> list (string * MockEntry)) : M unit :=
  fun this =>
    (Returned tt,
     {| baseUrl := baseUrl this; mocks := f (mocks this); mockQueue := mockQueue this |}).

Definition write_queue
    (f : list (string * list MockEntry) -> list (string * list MockEntry)) : M unit :=
  fun this =>
    (Returned tt,
     {| baseUrl := baseUrl this; mocks := mocks this; mockQueue := f (mockQueue this) |}).

Definition mocks_get (key : string) : M (option MockEntry) := read (fun this => JsMap.get key (mocks this)).
Definition mocks_has (key : string) : M bool := read (fun this => JsMap.has key (mocks this)).
Definition mocks_keys : M (list string) := read (fun this => JsMap.keys (mocks this)).
Definition mocks_set (key : string) (e : MockEntry) : M unit := write_mocks (JsMap.set key e).
Definition mocks_delete (key : string) : M unit := write_mocks (JsMap.delete key).
Definition mocks_clear : M unit := write_mocks (fun _ => []).

Definition queue_get (key : string) : M (option (list MockEntry)) :=
  read (fun this => JsMap.get key (mockQueue this)).
Definition queue_keys : M (list string) := read (fun this => JsMap.keys (mockQueue this)).
Definition queue_set (key : string) (q : list MockEntry) : M unit := write_queue (JsMap.set key q).
Definition queue_delete (key : string) : M unit := write_queue (JsMap.delete key).
Definition queue_clear : M unit := write_queue (fun _ => []).

(** The state a call leaves behind, and what it returned or threw. *)
Definition state_after {A} (m : M A) (this : FetchMock) : FetchMock := snd (m this).
Definition outcome_of {A} (m : M A) (this : FetchMock) : Outcome A := fst (m this).

(** ** The functions of index.ts *)

(** [getKey] *)
Definition getKey (method url : string) : string := "[" ++ method ++ "] " ++ url.

(** [joinBaseUrl] *)
Definition joinBaseUrl (baseUrl path : string) : string :=
  if negb (truthy baseUrl) then path
  else
    let normalizedBaseUrl :=
      if endsWith baseUrl "/" then slice_0_m1 baseUrl else baseUrl in
    normalizedBaseUrl ++ path.

(** [interface FetchMockOpts] and the constructor of the class. *)
Record FetchMockOpts : Type := mkFetchMockOpts { opt_baseUrl : option string }.

Definition new_FetchMock (opts : FetchMockOpts) : FetchMock :=
  {| baseUrl := default "" (opt_baseUrl opts); mocks := []; mockQueue := [] |}.

(** [validateUrl]: the message of the [ValidationError], or [None] for [null]. *)
Definition validateUrl (url : JsValue) : option string :=
  if negb (js_truthy url) || negb (typeof_string url) then
    Some "URL must be a non-empty string"
  else if negb (startsWith (as_string url) "http://")
          && negb (startsWith (as_string url) "https://")
          && negb (startsWith (as_string url) "/") then
    Some "URL must start with http://, https://, or /"
  else None.

Definition validMethods : list string :=
  ["GET"; "POST"; "PUT"; "DELETE"; "PATCH"; "HEAD"; "OPTIONS"].

(** [validateMethod] *)
Definition validateMethod (method : string) : bool :=
  bool_decide (method ∈ validMethods).

(** [reset]; its [return this] is the instance the computation leaves. *)
Definition reset : M unit :=
  mocks_clear ;; queue_clear ;; ret tt.

(** [expect(actual, label).toBe(true)] *)
Definition expect_toBe_true (actual : bool) (label : string) : M unit :=
  if actual then ret tt else throw (ExpectFailed label).

(** [for (const x of l) body(x)] *)
Fixpoint for_of {A} (l : list A) (body : A -> M unit) : M unit :=
  match l with
  | [] => ret tt
  | x :: l' => body x ;; for_of l' body
  end.

(** [assertAllMocksUsed] *)
Definition assertAllMocksUsed : M unit :=
  let* entries := read mocks in
  for_of entries (fun '(key, opts) =>
    expect_toBe_true (isUsed opts) ("Fetch mock " ++ key ++ " was not used")) ;;
  let* queues := read mockQueue in
  for_of queues (fun '(key, queue) =>
    for_of queue (fun opts =>
      expect_toBe_true (isUsed opts) ("Fetch mock " ++ key ++ " was not used"))).

(** The promotion step of [fetchMock] (the body of [if (once)]). *)
Definition rotate (key : string) : M unit :=
  mocks_delete key ;;
  let* queue := queue_get key in
  match queue with
  | Some (nextMock :: rest) =>
      (* queue.shift() shortens the array the table holds *)
      queue_set key rest ;;
      mocks_set key nextMock ;;
      match rest with
      | [] => queue_delete key
      | _ :: _ => ret tt
      end
  | Some [] | None => ret tt
  end.

(** The four [return] statements that end [fetchMock]: which constructor is
    called and with which arguments. *)
Definition synthesize (method : string) (opts : MockOpts) : Response :=
  let status := default 200%Z (status opts) in
  let headers := default (∅ : gmap string string) (headers opts) in
  let statusText := default "OK" (statusText opts) in
  let init := {| init_status := status; init_headers := headers;
                 init_statusText := statusText |} in
  if decide (method = "HEAD") then NewResponse None init
  else
    match data opts with
    | JUndefined => NewResponse None init
    | JStr text =>
        NewResponse (Some text)
          {| init_status := status;
             init_headers := headers ∪ {[ "Content-Type" := "text/plain" ]};
             init_statusText := statusText |}
    | payload => ResponseJson payload init
    end.

Definition unsupported_message (methodStr : string) : string :=
  "Unsupported HTTP method: " ++ methodStr
  ++ ". Supported methods: GET, POST, PUT, DELETE, PATCH, HEAD, OPTIONS".

Definition no_mock_message (key availableMocks : string) : string :=
  "No mock found for " ++ key
  ++ (if truthy availableMocks then ". Available mocks: " ++ availableMocks else "").

(** [fetchMock].  The options are read off the matched entry before
    [opts.isUsed = true] writes to it; that write is to the object the active
    table holds under [key]. *)
Definition fetchMock (url : string) (init : option RequestInit) : M Response :=
  let methodStr := toUpperCase (default DEFAULT_METHOD (init ≫= req_method)) in
  if negb (validateMethod methodStr) then
    throw (Error (unsupported_message methodStr))
  else
    let method := methodStr in
    let key := getKey method url in
    let* opts := mocks_get key in
    match opts with
    | None =>
        let* activeKeys := mocks_keys in
        let* queuedKeys := queue_keys in
        let allMocks := activeKeys ++ queuedKeys in
        let availableMocks := join ", " allMocks in
        throw (Error (no_mock_message key availableMocks))
    | Some opts =>
        mocks_set key (set_used opts) ;;
        (if default false (once (entry_opts opts)) then rotate key else ret tt) ;;
        ret (synthesize method (entry_opts opts))
    end.

(** [#mockRequest]; its [return this] is the instance the computation
    leaves.  [mockData] is a fresh object, held by one table at a time, so
    the tables can hold entries by value. *)
Definition mockRequest (method : HttpMethod) (url : JsValue) (opts : option MockOpts)
  : M unit :=
  match validateUrl url with
  | Some message =>
      throw (Error ("Invalid URL for " ++ method_name method ++ " mock: " ++ message))
  | None =>
      let url := as_string url in
      let* base := read baseUrl in
      let fullUrl := if startsWith url "/" then joinBaseUrl base url else url in
      let key := getKey (method_name method) fullUrl in
      let mockData := {| entry_opts := default no_opts opts; isUsed := false |} in
      let* present := mocks_has key in
      if present then
        let* queue := queue_get key in
        let queue := default [] queue in
        queue_set key (queue ++ [mockData])
      else
        mocks_set key mockData
  end.

(** The public registration methods. *)
Module Methods.
Definition get := mockRequest GET.
Definition post := mockRequest POST.
Definition put := mockRequest PUT.
Definition delete := mockRequest DELETE.
Definition patch := mockRequest PATCH.
Definition head := mockRequest HEAD.
Definition options := mockRequest OPTIONS.
End Methods.

(** ** Calls and the states they reach *)

(** What a test can do with the instance [useFetchMock] hands out. *)
Inductive Call : Type :=
| CallRegister (method : HttpMethod) (url : JsValue) (opts : option MockOpts)
| CallFetch (url : string) (init : option RequestInit)
| CallReset
| CallAssert.

(** The instance after a call, whether the call returned or threw. *)
Definition exec (c : Call) (this : FetchMock) : FetchMock :=
  match c with
  | CallRegister method url opts => state_after (mockRequest method url opts) this
  | CallFetch url init => state_after (fetchMock url init) this
  | CallReset => state_after reset this
  | CallAssert => state_after assertAllMocksUsed this
  end.

Inductive reachable : FetchMock -> Prop :=
| reach_new (opts : FetchMockOpts) : reachable (new_FetchMock opts)
| reach_call (c : Call) (this : FetchMock) :
    reachable this -> reachable (exec c this).

(** Every entry of both tables with the key it is filed under, in the order
    [assertAllMocksUsed] visits them. *)
Definition all_entries (this : FetchMock) : list (string * MockEntry) :=
  mocks this ++ flat_map (fun '(key, queue) => map (pair key) queue) (mockQueue this).

(** No key maps to an empty overflow queue. *)
Definition queues_nonempty (this : FetchMock) : Prop :=
  forall key queue, JsMap.get key (mockQueue this) = Some queue -> queue <> [].

(** Registration of a list of options against one (method, url), in order. *)
Definition register_all (method : HttpMethod) (url : JsValue) (specs : list MockOpts)
    (this : FetchMock) : FetchMock :=
  fold_left (fun st o => state_after (mockRequest method url (Some o)) st) specs this.

(** [n] successive dispatches of the same request: what each one returned or
    threw, and the instance they leave. *)
Fixpoint fetch_times (n : nat) (url : string) (init : option RequestInit)
    (this : FetchMock) : list (Outcome Response) * FetchMock :=
  match n with
  | O => ([], this)
  | S n' =>
      let '(r, this') := fetchMock url init this in
      let '(rs, this'') := fetch_times n' url init this' in
      (r :: rs, this'')
  end.

(** ** The earlier revision of index.ts *)

Module Rev0.

(** [#mockRequest] without [joinBaseUrl]: the base URL and the path are
    concatenated as they are. *)
Definition mockRequest (method : HttpMethod) (url : JsValue) (opts : option MockOpts)
  : M unit :=
  match validateUrl url with
  | Some message =>
      throw (Error ("Invalid URL for " ++ method_name method ++ " mock: " ++ message))
  | None =>
      let url := as_string url in
      let* base := read baseUrl in
      let fullUrl := if startsWith url "/" then (base ++ url)%string else url in
      let key := getKey (method_name method) fullUrl in
      let mockData := {| entry_opts := default no_opts opts; isUsed := false |} in
      let* present := mocks_has key in
      if present then
        let* queue := queue_get key in
        let queue := default [] queue in
        queue_set key (queue ++ [mockData])
      else
        mocks_set key mockData
  end.

(** [fetchMock] without [toUpperCase]. *)
Definition fetchMock (url : string) (init : option RequestInit) : M Response :=
  let methodStr := default DEFAULT_METHOD (init ≫= req_method) in
  if negb (validateMethod methodStr) then
    throw (Error (unsupported_message methodStr))
  else
    let method := methodStr in
    let key := getKey method url in
    let* opts := mocks_get key in
    match opts with
    | None =>
        let* activeKeys := mocks_keys in
        let* queuedKeys := queue_keys in
        let allMocks := activeKeys ++ queuedKeys in
        let availableMocks := join ", " allMocks in
        throw (Error (no_mock_message key availableMocks))
    | Some opts =>
        mocks_set key (set_used opts) ;;
        (if default false (once (entry_opts opts)) then rotate key else ret tt) ;;
        ret (synthesize method (entry_opts opts))
    end.

End Rev0.

(** ** The shape of the states the calls produce *)

(** The method [fetchMock] resolves for a call. *)
Definition resolved_method (init : option RequestInit) : string :=
  toUpperCase (default DEFAULT_METHOD (init ≫= req_method)).

(** The url [#mockRequest] files a valid registration under. *)
Definition full_url (this : FetchMock) (url : string) : string :=
  if startsWith url "/" then joinBaseUrl (baseUrl this) url else url.

(** The entry [#mockRequest] builds. *)
Definition new_entry (opts : option MockOpts) : MockEntry :=
  {| entry_opts := default no_opts opts; isUsed := false |}.

(** The entries filed under a key: the active one, then the queued ones. *)
Definition entries_of (key : string) (this : FetchMock) : list MockEntry :=
  option_list (JsMap.get key (mocks this))
  ++ default [] (JsMap.get key (mockQueue this)).

(** Where a registration puts its entry: in the active table when the key is
    free there, at the back of the key's overflow queue otherwise. *)
Definition filed_under (key : string) (e : MockEntry) (before after : FetchMock) : Prop :=
  if JsMap.has key (mocks before) then
    mocks after = mocks before
    /\ JsMap.get key (mockQueue after)
       = Some (default [] (JsMap.get key (mockQueue before)) ++ [e])
  else
    JsMap.get key (mocks after) = Some e
    /\ mockQueue after = mockQueue before.

(** The instance [this] with the entries [es] filed under a key that was
    free in both tables: the first one active, the others queued. *)
Definition loaded (this : FetchMock) (key : string) (es : list MockEntry) : FetchMock :=
  match es with
  | [] => this
  | e :: queue =>
      {| baseUrl := baseUrl this;
         mocks := mocks this ++ [(key, e)];
         mockQueue := match queue with
                      | [] => mockQueue this
                      | _ :: _ => mockQueue this ++ [(key, queue)]
                      end |}
  end.

(** Text within ASCII: every character is below 128. *)
Fixpoint ascii_text (s : string) : bool :=
  match s with
  | EmptyString => true
  | String c s' => Nat.ltb (nat_of_ascii c) 128 && ascii_text s'
  end.

(** [d] is the capital of [c]: for a letter a-z the character 32 places
    below it, for any other ASCII character [c] itself. *)
Definition capital_of (c d : ascii) : Prop :=
  if Nat.leb 97 (nat_of_ascii c) && Nat.leb (nat_of_ascii c) 122
  then nat_of_ascii d + 32 = nat_of_ascii c
  else d = c.

(** [t] is [s] in capitals, character by character. *)
Fixpoint in_capitals (s t : string) : Prop :=
  match s, t with
  | EmptyString, EmptyString => True
  | String c s', String d t' => capital_of c d /\ in_capitals s' t'
  | _, _ => False
  end.

(** The label [assertAllMocksUsed] gives the expectation on an entry. *)
Definition unused_label (key : string) : string :=
  "Fetch mock " ++ key ++ " was not used".

Definition is_unused (ke : string * MockEntry) : bool := negb (isUsed ke.2).

(** What holds of every instance a test can build (see [reachable_wf]). *)
Record wf (this : FetchMock) : Prop := mkWf {
  wf_mocks_ok : JsMap.ok (mocks this);
  wf_queue_ok : JsMap.ok (mockQueue this);
  wf_queue : forall key queue,
      JsMap.get key (mockQueue this) = Some queue ->
      queue <> [] /\ is_Some (JsMap.get key (mocks this))
      /\ Forall (fun e => isUsed e = false) queue;
  wf_used : forall key e,
      JsMap.get key (mocks this) = Some e -> isUsed e = true ->
      default false (once (entry_opts e)) = false;
  wf_keys : Forall (fun key => truthy key = true) (JsMap.keys (mocks this))
}.

(** * Properties *)

(** ** Strings *)

Section JsStringFacts.

Lemma append_nil_l (s : string) : ("" ++ s)%string = s.
Proof. reflexivity. Qed.

Lemma append_cons (c : ascii) (s t : string) :
  (String c s ++ t)%string = String c (s ++ t).
Proof. reflexivity. Qed.


Lemma length_append (a b : string) :
  String.length (a ++ b) = String.length a + String.length b.
Proof.
  induction a as [|x a IH]; [reflexivity|].
  rewrite append_cons. simpl. now rewrite IH.
Qed.

Lemma substring_all (s : string) : String.substring 0 (String.length s) s = s.
Proof. induction s as [|c s IH]; simpl; [reflexivity | now rewrite IH]. Qed.

Lemma substring_prefix (a b : string) :
  String.substring 0 (String.length a) (a ++ b) = a.
Proof.
  induction a as [|x a IH].
  - rewrite append_nil_l. destruct b; reflexivity.
  - rewrite append_cons. simpl. now rewrite IH.
Qed.

Lemma substring_suffix (a b : string) :
  String.substring (String.length a) (String.length b) (a ++ b) = b.
Proof.
  induction a as [|x a IH]; [apply substring_all|].
  rewrite append_cons. exact IH.
Qed.

(** A non-empty string has a last character. *)
Lemma string_snoc (s : string) :
  s <> ""%string -> exists b c, s = (b ++ String c "")%string.
Proof.
  induction s as [|x s IH]; intros Hne; [congruence|].
  destruct s as [|y s].
  - exists ""%string, x. reflexivity.
  - destruct IH as (b & c & Hb); [discriminate|].
    exists (String x b), c. rewrite append_cons. now rewrite <- Hb.
Qed.

Lemma startsWith_spec (s p : string) :
  startsWith s p = true <-> exists rest, s = (p ++ rest)%string.
Proof.
  unfold startsWith. revert s.
  induction p as [|c p IH]; intros s.
  - split; [intros _; now exists s | intros _; destruct s; reflexivity].
  - destruct s as [|d s].
    + split; [discriminate | intros [rest H]; discriminate].
    + simpl. destruct (Ascii.ascii_dec c d) as [->|Hcd].
      * rewrite IH. split; intros [rest H]; exists rest.
        -- rewrite append_cons. congruence.
        -- rewrite append_cons in H. congruence.
      * split; [discriminate | intros [rest H]].
        rewrite append_cons in H. congruence.
Qed.

Lemma endsWith_snoc (b : string) (c d : ascii) :
  endsWith (b ++ String c "") (String d "") = bool_decide (c = d).
Proof.
  unfold endsWith. rewrite length_append. simpl String.length.
  replace (String.length b + 1 - 1) with (String.length b) by lia.
  replace (1 <=? String.length b + 1)%nat with true
    by (symmetry; apply Nat.leb_le; lia).
  change 1 with (String.length (String c "")).
  rewrite substring_suffix. simpl.
  destruct (Ascii.eqb_spec c d) as [->|Hne].
  - now rewrite bool_decide_eq_true_2.
  - now rewrite bool_decide_eq_false_2.
Qed.

Lemma endsWith_slash_spec (s : string) :
  endsWith s "/" = true <-> exists b, s = (b ++ "/")%string.
Proof.
  split.
  - intros H. destruct s as [|x s]; [discriminate|].
    destruct (string_snoc (String x s)) as (b & c & Hs); [discriminate|].
    rewrite Hs in H |- *. rewrite endsWith_snoc in H.
    apply bool_decide_eq_true_1 in H. subst c. now exists b.
  - intros [b ->]. rewrite endsWith_snoc. now apply bool_decide_eq_true_2.
Qed.

Lemma slice_0_m1_snoc (b : string) (c : ascii) :
  slice_0_m1 (b ++ String c "") = b.
Proof.
  unfold slice_0_m1. rewrite length_append. simpl String.length.
  replace (String.length b + 1 - 1) with (String.length b) by lia.
  apply substring_prefix.
Qed.

Lemma truthy_spec (s : string) : truthy s = true <-> s <> ""%string.
Proof. destruct s; simpl; split; congruence. Qed.



Lemma upper_char_idem (c : ascii) : upper_char (upper_char c) = upper_char c.
Proof.
  unfold upper_char.
  destruct (Nat.leb 97 (nat_of_ascii c) && Nat.leb (nat_of_ascii c) 122) eqn:E;
    [|now rewrite E].
  apply andb_true_iff in E as [E1 E2].
  apply Nat.leb_le in E1, E2.
  rewrite nat_ascii_embedding by lia.
  replace (Nat.leb 97 (nat_of_ascii c - 32)) with false; [reflexivity|].
  symmetry. apply Nat.leb_gt. lia.
Qed.

Lemma toUpperCase_idem (s : string) : toUpperCase (toUpperCase s) = toUpperCase s.
Proof.
  induction s as [|c s IH]; simpl; [reflexivity|].
  now rewrite upper_char_idem, IH.
Qed.

Lemma truthy_getKey (method url : string) : truthy (getKey method url) = true.
Proof. reflexivity. Qed.

End JsStringFacts.

(** ** Insertion-ordered maps *)

Module JsMapFacts.
Import JsMap.

Section Facts.
Context {V : Type}.
Implicit Types (m : list (string * V)) (k : string) (v : V).

Lemma get_set_eq k v m : get k (set k v m) = Some v.
Proof.
  induction m as [|[k' v'] m IH]; simpl.
  - now rewrite decide_True.
  - destruct (decide (k = k')) as [->|Hne]; simpl.
    + now rewrite decide_True.
    + now rewrite decide_False.
Qed.

Lemma get_set_ne k k' v m : k <> k' -> get k' (set k v m) = get k' m.
Proof.
  intros Hne. induction m as [|[k0 v0] m IH]; simpl.
  - rewrite decide_False; congruence.
  - destruct (decide (k = k0)) as [->|Hk]; simpl.
    + rewrite !decide_False; congruence.
    + now rewrite IH.
Qed.

Lemma get_delete_eq k m : get k (delete k m) = None.
Proof.
  induction m as [|[k' v'] m IH]; simpl; [reflexivity|].
  destruct (decide (k = k')) as [->|Hne]; simpl; [exact IH|].
  now rewrite decide_False.
Qed.

Lemma get_delete_ne k k' m : k <> k' -> get k' (delete k m) = get k' m.
Proof.
  intros Hne. induction m as [|[k0 v0] m IH]; simpl; [reflexivity|].
  destruct (decide (k = k0)) as [->|Hk]; simpl.
  - rewrite decide_False; congruence.
  - now rewrite IH.
Qed.

Lemma get_None_keys k m : get k m = None <-> k ∉ keys m.
Proof.
  induction m as [|[k' v'] m IH]; simpl.
  - split; [intros _; apply not_elem_of_nil | reflexivity].
  - rewrite not_elem_of_cons. destruct (decide (k = k')) as [->|Hne].
    + split; [discriminate | intros [? _]; congruence].
    + rewrite IH. tauto.
Qed.

Lemma get_Some_keys k v m : get k m = Some v -> k ∈ keys m.
Proof.
  intros H. destruct (decide (k ∈ keys m)) as [|Hn]; [assumption|].
  apply get_None_keys in Hn. congruence.
Qed.

Lemma set_absent k v m : get k m = None -> set k v m = m ++ [(k, v)].
Proof.
  induction m as [|[k' v'] m IH]; simpl; [reflexivity|].
  destruct (decide (k = k')) as [->|Hne]; [discriminate|].
  intros H. now rewrite IH.
Qed.

Lemma keys_set_present k v m : k ∈ keys m -> keys (set k v m) = keys m.
Proof.
  induction m as [|[k' v'] m IH]; simpl.
  - intros H. now apply elem_of_nil in H.
  - intros H. destruct (decide (k = k')) as [->|Hne]; simpl; [reflexivity|].
    apply elem_of_cons in H as [?|H]; [congruence|].
    f_equal. now apply IH.
Qed.

Lemma keys_set_absent k v m : k ∉ keys m -> keys (set k v m) = keys m ++ [k].
Proof.
  intros H. apply get_None_keys in H. rewrite set_absent by assumption.
  unfold keys. now rewrite map_app.
Qed.

Lemma delete_snoc k v m : get k m = None -> delete k (m ++ [(k, v)]) = m.
Proof.
  induction m as [|[k' v'] m IH]; simpl.
  - now rewrite decide_True.
  - destruct (decide (k = k')) as [->|Hne]; [discriminate|].
    intros H. now rewrite IH.
Qed.

Lemma set_snoc k v v' m : get k m = None -> set k v' (m ++ [(k, v)]) = m ++ [(k, v')].
Proof.
  induction m as [|[k0 v0] m IH]; simpl.
  - now rewrite decide_True.
  - destruct (decide (k = k0)) as [->|Hne]; [discriminate|].
    intros H. now rewrite IH.
Qed.

Lemma get_snoc k v m : get k m = None -> get k (m ++ [(k, v)]) = Some v.
Proof.
  intros H. rewrite <- set_absent by assumption. apply get_set_eq.
Qed.

Lemma keys_delete_subseteq k m : keys (delete k m) ⊆ keys m.
Proof.
  induction m as [|[k' v'] m IH]; simpl; [done|].
  intros x Hx. apply elem_of_cons.
  destruct (decide (k = k')); simpl in Hx.
  - right. now apply IH.
  - apply elem_of_cons in Hx as [->|Hx]; [now left | right; now apply IH].
Qed.

Lemma ok_set k v m : ok m -> ok (set k v m).
Proof.
  unfold ok. intros Hnd. destruct (decide (k ∈ keys m)) as [Hin|Hnin].
  - now rewrite keys_set_present.
  - rewrite keys_set_absent by assumption.
    apply NoDup_app. repeat split; [assumption | | apply NoDup_singleton].
    intros x Hx Hx'. apply list_elem_of_singleton in Hx'. now subst.
Qed.

Lemma ok_delete k m : ok m -> ok (delete k m).
Proof.
  unfold ok. induction m as [|[k' v'] m IH]; simpl; [done|].
  intros Hnd. apply NoDup_cons in Hnd as [Hk Hnd].
  destruct (decide (k = k')); simpl; [now apply IH|].
  apply NoDup_cons. split; [|now apply IH].
  intros Hin. apply Hk. now apply (keys_delete_subseteq k).
Qed.

Lemma Forall_keys_set (P : string -> Prop) k v m :
  P k -> Forall P (keys m) -> Forall P (keys (set k v m)).
Proof.
  intros Hk. induction m as [|[k' v'] m IH]; simpl; intros H.
  - now constructor.
  - inversion H; subst. destruct (decide (k = k')); simpl; constructor; auto.
Qed.

Lemma Forall_keys_delete (P : string -> Prop) k m :
  Forall P (keys m) -> Forall P (keys (delete k m)).
Proof.
  induction m as [|[k' v'] m IH]; simpl; intros H; [done|].
  inversion H; subst. destruct (decide (k = k')); simpl; [|constructor]; auto.
Qed.

Lemma has_true k m : has k m = true <-> is_Some (get k m).
Proof.
  unfold has. destruct (get k m); split; intros H;
    try done; try (now eexists); now destruct H.
Qed.

Lemma has_false k m : has k m = false <-> get k m = None.
Proof. unfold has. destruct (get k m); split; congruence. Qed.
End Facts.
End JsMapFacts.

(** ** The methods, step by step *)

Ltac unfold_M :=
  unfold mocks_get, mocks_has, mocks_keys, mocks_set, mocks_delete, mocks_clear,
    queue_get, queue_keys, queue_set, queue_delete, queue_clear,
    read, write_mocks, write_queue, bind, ret, throw.

Section Steps.
Import JsMap JsMapFacts.

Lemma delete_set {V} (k : string) (v : V) m : delete k (set k v m) = delete k m.
Proof.
  induction m as [|[k' v'] m IH]; simpl.
  - now rewrite decide_True.
  - destruct (decide (k = k')) as [->|Hne]; simpl.
    + now rewrite decide_True.
    + rewrite decide_False by assumption. now rewrite IH.
Qed.

Lemma fetchMock_unsupported url init this :
  validateMethod (resolved_method init) = false ->
  fetchMock url init this
  = (Thrown (Error (unsupported_message (resolved_method init))), this).
Proof.
  intros H. unfold fetchMock. fold (resolved_method init). now rewrite H.
Qed.

Lemma fetchMock_missing url init this :
  validateMethod (resolved_method init) = true ->
  get (getKey (resolved_method init) url) (mocks this) = None ->
  fetchMock url init this
  = (Thrown (Error (no_mock_message (getKey (resolved_method init) url)
                      (join ", " (keys (mocks this) ++ keys (mockQueue this))))),
     this).
Proof.
  intros Hv Hg. unfold fetchMock. fold (resolved_method init). rewrite Hv.
  unfold_M. simpl. now rewrite Hg.
Qed.

(** The instance after a dispatch matched [e] under [key]. *)
Lemma fetchMock_hit url init this e :
  let method := resolved_method init in
  let key := getKey method url in
  validateMethod method = true ->
  get key (mocks this) = Some e ->
  fetchMock url init this
  = (Returned (synthesize method (entry_opts e)),
     if default false (once (entry_opts e)) then
       match get key (mockQueue this) with
       | Some (nextMock :: rest) =>
           {| baseUrl := baseUrl this;
              mocks := set key nextMock (delete key (mocks this));
              mockQueue := match rest with
                           | [] => delete key (mockQueue this)
                           | _ :: _ => set key rest (mockQueue this)
                           end |}
       | _ =>
           {| baseUrl := baseUrl this;
              mocks := delete key (mocks this);
              mockQueue := mockQueue this |}
       end
     else
       {| baseUrl := baseUrl this;
          mocks := set key (set_used e) (mocks this);
          mockQueue := mockQueue this |}).
Proof.
  intros method key Hv Hg. unfold fetchMock.
  fold (resolved_method init). fold method. rewrite Hv. fold key.
  unfold_M. simpl. rewrite Hg.
  destruct (default false (once (entry_opts e))); [|reflexivity].
  unfold rotate. unfold_M. simpl. rewrite delete_set.
  destruct (get key (mockQueue this)) as [[|nextMock rest]|]; try reflexivity.
  simpl. destruct rest; simpl; [|reflexivity].
  now rewrite delete_set.
Qed.

Lemma mockRequest_invalid method url opts this message :
  validateUrl url = Some message ->
  mockRequest method url opts this
  = (Thrown (Error ("Invalid URL for " ++ method_name method ++ " mock: " ++ message)),
     this).
Proof. intros H. unfold mockRequest. now rewrite H. Qed.

Lemma mockRequest_valid method url opts this :
  let key := getKey (method_name method) (full_url this (as_string url)) in
  validateUrl url = None ->
  mockRequest method url opts this
  = (Returned tt,
     if has key (mocks this) then
       {| baseUrl := baseUrl this;
          mocks := mocks this;
          mockQueue := set key (default [] (get key (mockQueue this)) ++ [new_entry opts])
                         (mockQueue this) |}
     else
       {| baseUrl := baseUrl this;
          mocks := set key (new_entry opts) (mocks this);
          mockQueue := mockQueue this |}).
Proof.
  intros key H. unfold mockRequest. rewrite H. unfold_M. simpl.
  fold (full_url this (as_string url)). fold key.
  destruct (has key (mocks this)); reflexivity.
Qed.

End Steps.

(** ** Verification only reads *)

Section Verification.

Lemma for_of_app {A} (l1 l2 : list A) (body : A -> M unit) this :
  for_of (l1 ++ l2) body this = (for_of l1 body ;; for_of l2 body) this.
Proof.
  revert this. induction l1 as [|x l1 IH]; intros this; simpl; [reflexivity|].
  unfold bind. destruct (body x this) as [[[]|e] this']; [|reflexivity].
  rewrite IH. reflexivity.
Qed.

Lemma for_of_expect (l : list (string * MockEntry)) (body : string * MockEntry -> M unit) this :
  (forall ke, body ke = expect_toBe_true (isUsed ke.2) (unused_label ke.1)) ->
  for_of l body this
  = (match List.find is_unused l with
     | Some ke => Thrown (ExpectFailed (unused_label ke.1))
     | None => Returned tt
     end, this).
Proof.
  intros Hbody. induction l as [|ke l IH]; simpl; [reflexivity|].
  unfold bind. rewrite Hbody. unfold expect_toBe_true, is_unused.
  destruct (isUsed ke.2); simpl; [exact IH | reflexivity].
Qed.

Lemma for_of_queue (key : string) (queue : list MockEntry) this :
  for_of queue (fun opts => expect_toBe_true (isUsed opts) (unused_label key)) this
  = for_of (map (pair key) queue)
      (fun ke => expect_toBe_true (isUsed ke.2) (unused_label ke.1)) this.
Proof.
  induction queue as [|e queue IH]; simpl; [reflexivity|].
  unfold bind. destruct (expect_toBe_true (isUsed e) (unused_label key) this)
    as [[[]|x] this'] eqn:E; [|reflexivity].
  unfold expect_toBe_true in E. destruct (isUsed e); [|discriminate].
  injection E as <-. exact IH.
Qed.

Lemma for_of_queues (queues : list (string * list MockEntry)) this :
  for_of queues (fun '(key, queue) =>
    for_of queue (fun opts => expect_toBe_true (isUsed opts) (unused_label key))) this
  = for_of (flat_map (fun '(key, queue) => map (pair key) queue) queues)
      (fun ke => expect_toBe_true (isUsed ke.2) (unused_label ke.1)) this.
Proof.
  induction queues as [|[key queue] queues IH]; simpl; [reflexivity|].
  rewrite for_of_app. unfold bind. rewrite for_of_queue.
  rewrite (for_of_expect _ _ this) by reflexivity.
  destruct (List.find is_unused (map (pair key) queue)); [reflexivity | exact IH].
Qed.

Lemma find_app {A} (p : A -> bool) (l1 l2 : list A) :
  List.find p (l1 ++ l2)
  = match List.find p l1 with Some x => Some x | None => List.find p l2 end.
Proof.
  induction l1 as [|x l1 IH]; simpl; [reflexivity|]. now destruct (p x).
Qed.

Lemma assertAllMocksUsed_spec this :
  assertAllMocksUsed this
  = (match List.find is_unused (all_entries this) with
     | Some ke => Thrown (ExpectFailed (unused_label ke.1))
     | None => Returned tt
     end, this).
Proof.
  unfold assertAllMocksUsed, all_entries. rewrite find_app.
  unfold bind at 1, read at 1. unfold bind at 1.
  rewrite (for_of_expect (mocks this) _ this) by (now intros [k e]).
  destruct (List.find is_unused (mocks this)) as [ke|]; [reflexivity|].
  unfold bind, read.
  etransitivity; [apply (for_of_queues (mockQueue this) this)|].
  now rewrite (for_of_expect _ _ this) by reflexivity.
Qed.

End Verification.

(** ** Every reachable instance is well formed *)

Section WellFormed.
Import JsMap JsMapFacts.

Lemma wf_new opts : wf (new_FetchMock opts).
Proof.
  split; simpl; try (intros; discriminate).
  - apply NoDup_nil_2.
  - apply NoDup_nil_2.
  - constructor.
Qed.

Lemma wf_reset this : wf (state_after reset this).
Proof.
  split; simpl; try (intros; discriminate).
  - apply NoDup_nil_2.
  - apply NoDup_nil_2.
  - constructor.
Qed.

Lemma wf_assert this : wf this -> wf (state_after assertAllMocksUsed this).
Proof. unfold state_after. now rewrite assertAllMocksUsed_spec. Qed.

Lemma wf_mockRequest method url opts this :
  wf this -> wf (state_after (mockRequest method url opts) this).
Proof.
  intros [Hm Hq Hqueue Hused Hkeys]. unfold state_after.
  destruct (validateUrl url) as [message|] eqn:Hv.
  { rewrite (mockRequest_invalid _ _ _ _ _ Hv). now split. }
  rewrite (mockRequest_valid _ _ _ _ Hv). simpl.
  set (key := getKey (method_name method) (full_url this (as_string url))).
  destruct (has key (mocks this)) eqn:Hhas; split; simpl; auto.
  - now apply ok_set.
  - intros k q Hk. destruct (decide (key = k)) as [<-|Hne].
    + rewrite get_set_eq in Hk. injection Hk as <-.
      split; [now destruct (default [] (get key (mockQueue this)))|].
      split; [now apply has_true|].
      apply Forall_app. split; [|now repeat constructor].
      destruct (get key (mockQueue this)) as [q0|] eqn:Hq0; [|constructor].
      now apply (Hqueue key q0).
    + rewrite get_set_ne in Hk by assumption. now apply Hqueue.
  - now apply ok_set.
  - intros k q Hk. destruct (Hqueue k q Hk) as (Hne & Hsome & Hall).
    split; [assumption|]. split; [|assumption].
    apply has_false in Hhas.
    rewrite get_set_ne; [assumption|].
    intros <-. rewrite Hhas in Hsome. now destruct Hsome.
  - intros k e Hk Hu. destruct (decide (key = k)) as [<-|Hne].
    + rewrite get_set_eq in Hk. injection Hk as <-. discriminate.
    + rewrite get_set_ne in Hk by assumption. now apply (Hused k).
  - apply Forall_keys_set; [apply truthy_getKey | assumption].
Qed.

Lemma wf_fetchMock url init this :
  wf this -> wf (state_after (fetchMock url init) this).
Proof.
  intros Hwf. pose proof Hwf as [Hm Hq Hqueue Hused Hkeys]. unfold state_after.
  destruct (validateMethod (resolved_method init)) eqn:Hv;
    [|now rewrite fetchMock_unsupported].
  set (key := getKey (resolved_method init) url).
  destruct (get key (mocks this)) as [e|] eqn:Hg;
    [|now rewrite fetchMock_missing].
  rewrite (fetchMock_hit _ _ _ e Hv Hg). simpl. fold key.
  destruct (default false (once (entry_opts e))) eqn:Honce.
  - destruct (get key (mockQueue this)) as [[|nextMock rest]|] eqn:Hqk.
    + now destruct (Hqueue key [] Hqk) as [? _].
    + destruct (Hqueue key _ Hqk) as (_ & _ & Hall).
      apply Forall_cons in Hall as [Hnext Hrest].
      split; simpl.
      * now apply ok_set, ok_delete.
      * destruct rest; [now apply ok_delete | now apply ok_set].
      * intros k q Hk. destruct (decide (key = k)) as [<-|Hne].
        -- destruct rest as [|r rest].
           ++ now rewrite get_delete_eq in Hk.
           ++ rewrite get_set_eq in Hk. injection Hk as <-.
              split; [discriminate|]. split; [|assumption].
              rewrite get_set_eq. now eexists.
        -- assert (get k (mockQueue this) = Some q) as Hk'.
           { destruct rest; [now rewrite get_delete_ne in Hk
                            | now rewrite get_set_ne in Hk]. }
           destruct (Hqueue k q Hk') as (? & ? & ?).
           rewrite get_set_ne, get_delete_ne by assumption. auto.
      * intros k e0 Hk Hu. destruct (decide (key = k)) as [<-|Hne].
        -- rewrite get_set_eq in Hk. injection Hk as <-. congruence.
        -- rewrite get_set_ne, get_delete_ne in Hk by assumption.
           now apply (Hused k).
      * apply Forall_keys_set; [apply truthy_getKey|].
        now apply Forall_keys_delete.
    + split; simpl; auto.
      * now apply ok_delete.
      * intros k q Hk. destruct (Hqueue k q Hk) as (? & ? & ?).
        rewrite get_delete_ne; [auto|]. intros <-. congruence.
      * intros k e0 Hk Hu. destruct (decide (key = k)) as [<-|Hne].
        -- now rewrite get_delete_eq in Hk.
        -- rewrite get_delete_ne in Hk by assumption. now apply (Hused k).
      * now apply Forall_keys_delete.
  - split; simpl; auto.
    + now apply ok_set.
    + intros k q Hk. destruct (Hqueue k q Hk) as (? & ? & ?).
      split; [assumption|]. split; [|assumption].
      destruct (decide (key = k)) as [<-|Hne].
      * rewrite get_set_eq. now eexists.
      * now rewrite get_set_ne.
    + intros k e0 Hk Hu. destruct (decide (key = k)) as [<-|Hne].
      * rewrite get_set_eq in Hk. now injection Hk as <-.
      * rewrite get_set_ne in Hk by assumption. now apply (Hused k).
    + apply Forall_keys_set; [apply truthy_getKey | assumption].
Qed.

Lemma wf_exec c this : wf this -> wf (exec c this).
Proof.
  destruct c; simpl.
  - apply wf_mockRequest.
  - apply wf_fetchMock.
  - intros _. apply wf_reset.
  - apply wf_assert.
Qed.

Lemma reachable_wf this : reachable this -> wf this.
Proof.
  induction 1 as [opts | c this _ IH]; [apply wf_new | now apply wf_exec].
Qed.

End WellFormed.

(** ** Registration *)

Section Registration.
Import JsMap JsMapFacts.

Lemma validateUrl_string (s : string) :
  validateUrl (JStr s)
  = if negb (truthy s) then Some "URL must be a non-empty string"%string
    else if negb (startsWith s "http://") && negb (startsWith s "https://")
            && negb (startsWith s "/")
         then Some "URL must start with http://, https://, or /"%string
         else None.
Proof. unfold validateUrl. simpl. now rewrite orb_false_r. Qed.

Lemma validateUrl_not_string (url : JsValue) :
  (forall s, url <> JStr s) ->
  validateUrl url = Some "URL must be a non-empty string"%string.
Proof.
  intros H. unfold validateUrl.
  destruct url; simpl; try (now rewrite ?orb_true_r); now destruct (H s).
Qed.

Lemma validateUrl_root_relative (rest : string) :
  validateUrl (JStr ("/" ++ rest)) = None.
Proof.
  rewrite validateUrl_string. change ("/" ++ rest)%string with (String "/" rest).
  simpl. now destruct rest.
Qed.

Lemma joinBaseUrl_slash (b path : string) :
  joinBaseUrl (b ++ "/") path = (b ++ path)%string.
Proof.
  unfold joinBaseUrl.
  assert (truthy (b ++ "/") = true) as ->.
  { apply truthy_spec. destruct b; discriminate. }
  simpl. rewrite endsWith_snoc, bool_decide_eq_true_2 by reflexivity.
  now rewrite slice_0_m1_snoc.
Qed.

Lemma joinBaseUrl_no_slash (base path : string) :
  (forall b, base <> (b ++ "/")%string) ->
  joinBaseUrl base path = (base ++ path)%string.
Proof.
  intros H. unfold joinBaseUrl. destruct (truthy base) eqn:Ht; simpl.
  - destruct (endsWith base "/") eqn:He; [|reflexivity].
    apply endsWith_slash_spec in He as [b Hb]. now destruct (H b).
  - destruct base; [reflexivity | discriminate].
Qed.

Lemma filed_under_valid method url opts this :
  validateUrl url = None ->
  filed_under (getKey (method_name method) (full_url this (as_string url)))
    (new_entry opts) this (state_after (mockRequest method url opts) this).
Proof.
  intros Hv. unfold state_after, filed_under.
  rewrite (mockRequest_valid _ _ _ _ Hv). simpl.
  destruct (has _ (mocks this)) eqn:Hhas; simpl.
  - split; [reflexivity | apply get_set_eq].
  - split; [apply get_set_eq | reflexivity].
Qed.

(** C1. Registering the root-relative path "/rest" returns normally and
    files the new (unused) entry under the key of the method and a url that
    is: the base URL without its last character followed by the path when
    the base URL ends in "/"; the base URL followed by the path when it
    does not; the path itself when the base URL is empty (none was
    configured). *)
Theorem C1_root_relative_key (this : FetchMock) (method : HttpMethod)
    (rest : string) (opts : option MockOpts) :
  let path := ("/" ++ rest)%string in
  exists fullUrl : string,
    outcome_of (mockRequest method (JStr path) opts) this = Returned tt
    /\ filed_under (getKey (method_name method) fullUrl) (new_entry opts) this
         (state_after (mockRequest method (JStr path) opts) this)
    /\ (forall b, baseUrl this = (b ++ "/")%string -> fullUrl = (b ++ path)%string)
    /\ ((forall b, baseUrl this <> (b ++ "/")%string) ->
        fullUrl = (baseUrl this ++ path)%string)
    /\ (baseUrl this = ""%string -> fullUrl = path).
Proof.
  intros path. exists (joinBaseUrl (baseUrl this) path).
  pose proof (validateUrl_root_relative rest) as Hv. fold path in Hv.
  assert (full_url this path = joinBaseUrl (baseUrl this) path) as Hfull.
  { unfold full_url, path. change ("/" ++ rest)%string with (String "/" rest).
    unfold startsWith. simpl. now destruct rest. }
  repeat split.
  - unfold outcome_of. now rewrite (mockRequest_valid _ _ _ _ Hv).
  - rewrite <- Hfull. now apply (filed_under_valid method (JStr path)).
  - intros b ->. apply joinBaseUrl_slash.
  - apply joinBaseUrl_no_slash.
  - intros ->. reflexivity.
Qed.

(** The example of the specification: base "https://api.example.com/" and
    path "/users" give the key of "https://api.example.com/users". *)
Lemma C1_root_relative_key_witness :
  JsMap.get "[GET] https://api.example.com/users"
    (mocks (state_after (mockRequest GET (JStr "/users") None)
              (new_FetchMock (mkFetchMockOpts (Some "https://api.example.com/")))))
  = Some (new_entry None).
Proof.
  destruct (C1_root_relative_key
              (new_FetchMock (mkFetchMockOpts (Some "https://api.example.com/")%string))
              GET "users" None) as (fullUrl & _ & Hfiled & Hslash & _ & _).
  rewrite (Hslash "https://api.example.com"%string eq_refl) in Hfiled.
  exact (proj1 Hfiled).
Defined.

(** C8. [#mockRequest] throws exactly when the url is not a string, is the
    empty string, or is a string with none of the three prefixes.  The
    error names the method and the rule broken (non-empty string, or
    prefix), and the instance is left as it was. *)
Theorem C8_validation (this : FetchMock) (method : HttpMethod) (url : JsValue)
    (opts : option MockOpts) :
  let bad_shape := (forall s, url <> JStr s) \/ url = JStr "" in
  let bad_prefix :=
    exists s, url = JStr s /\ s <> ""%string
              /\ ~ (exists r, s = ("http://" ++ r)%string)
              /\ ~ (exists r, s = ("https://" ++ r)%string)
              /\ ~ (exists r, s = ("/" ++ r)%string) in
  ((exists e, outcome_of (mockRequest method url opts) this = Thrown e)
   <-> bad_shape \/ bad_prefix)
  /\ (bad_shape ->
      mockRequest method url opts this
      = (Thrown (Error ("Invalid URL for " ++ method_name method
                        ++ " mock: URL must be a non-empty string")), this))
  /\ (bad_prefix ->
      mockRequest method url opts this
      = (Thrown (Error ("Invalid URL for " ++ method_name method
                        ++ " mock: URL must start with http://, https://, or /")),
         this)).
Proof.
  intros bad_shape bad_prefix.
  assert (bad_shape -> validateUrl url = Some "URL must be a non-empty string"%string)
    as Hshape.
  { intros [H| ->]; [now apply validateUrl_not_string | reflexivity]. }
  assert (bad_prefix ->
          validateUrl url = Some "URL must start with http://, https://, or /"%string)
    as Hprefix.
  { intros (s & -> & Hne & H1 & H2 & H3). rewrite validateUrl_string.
    apply truthy_spec in Hne. rewrite Hne. simpl.
    destruct (startsWith s "http://") eqn:E1;
      [apply startsWith_spec in E1; contradiction|].
    destruct (startsWith s "https://") eqn:E2;
      [apply startsWith_spec in E2; contradiction|].
    destruct (startsWith s "/") eqn:E3;
      [apply startsWith_spec in E3; contradiction|].
    reflexivity. }
  split; [|split].
  - split.
    + intros [e He]. unfold outcome_of in He.
      destruct (validateUrl url) as [message|] eqn:Hv.
      * destruct url as [| | | |s| |];
          try (left; left; intros s0; discriminate).
        rewrite validateUrl_string in Hv.
        destruct (truthy s) eqn:Ht; simpl in Hv.
        -- right. exists s. split; [reflexivity|].
           split; [now apply truthy_spec|].
           destruct (startsWith s "http://") eqn:E1; simpl in Hv;
           destruct (startsWith s "https://") eqn:E2; simpl in Hv;
           destruct (startsWith s "/") eqn:E3; simpl in Hv; try discriminate.
           repeat split; intros Hr; apply startsWith_spec in Hr; congruence.
        -- left. right. destruct s; [reflexivity | discriminate].
      * rewrite (mockRequest_valid _ _ _ _ Hv) in He. discriminate.
    + intros [H|H]; eexists; unfold outcome_of.
      * now rewrite (mockRequest_invalid _ _ _ _ _ (Hshape H)).
      * now rewrite (mockRequest_invalid _ _ _ _ _ (Hprefix H)).
  - intros H. now rewrite (mockRequest_invalid _ _ _ _ _ (Hshape H)).
  - intros H. now rewrite (mockRequest_invalid _ _ _ _ _ (Hprefix H)).
Qed.

(** The url of the test suite, "invalid-url", is rejected for its prefix. *)
Lemma C8_validation_witness :
  mockRequest GET (JStr "invalid-url") None (new_FetchMock (mkFetchMockOpts None))
  = (Thrown (Error "Invalid URL for GET mock: URL must start with http://, https://, or /"),
     new_FetchMock (mkFetchMockOpts None)).
Proof.
  apply (proj2 (proj2 (C8_validation (new_FetchMock (mkFetchMockOpts None)) GET
                         (JStr "invalid-url") None))).
  exists "invalid-url"%string.
  split; [reflexivity|]. split; [discriminate|].
  repeat split; intros [r Hr]; discriminate Hr.
Defined.

End Registration.

(** ** Dispatch *)

Section Dispatch.
Import JsMap JsMapFacts.

Lemma keys_get_Some {V} (k : string) (m : list (string * V)) :
  k ∈ keys m -> is_Some (get k m).
Proof.
  intros Hin. destruct (get k m) eqn:E; [now eexists|].
  apply get_None_keys in E. contradiction.
Qed.



Lemma capital_of_upper_char (c : ascii) : capital_of c (upper_char c).
Proof.
  unfold capital_of, upper_char.
  destruct (Nat.leb 97 (nat_of_ascii c) && Nat.leb (nat_of_ascii c) 122) eqn:E;
    [|reflexivity].
  apply andb_true_iff in E as [E1 E2]. apply Nat.leb_le in E1, E2.
  rewrite nat_ascii_embedding by lia. lia.
Qed.

Lemma in_capitals_toUpperCase (s : string) : in_capitals s (toUpperCase s).
Proof.
  induction s as [|c s IH]; simpl; [exact I|].
  split; [apply capital_of_upper_char | exact IH].
Qed.

Lemma in_capitals_fun (s t : string) : in_capitals s t -> toUpperCase s = t.
Proof.
  revert t. induction s as [|c s IH]; intros [|d t]; simpl; try tauto.
  intros [Hc Hs]. f_equal; [|now apply IH].
  unfold capital_of in Hc. unfold upper_char.
  destruct (Nat.leb 97 (nat_of_ascii c) && Nat.leb (nat_of_ascii c) 122);
    [|now symmetry].
  rewrite <- (ascii_nat_embedding d). f_equal. lia.
Qed.

(** A dispatch whose method resolves to a supported [name] is decided by the
    active entry of the key of [name] and the url. *)
Lemma dispatch_with_method (this : FetchMock) (url : string)
    (init : option RequestInit) (name : string) :
  resolved_method init = name ->
  validateMethod name = true ->
  match get (getKey name url) (mocks this) with
  | Some e =>
      outcome_of (fetchMock url init) this = Returned (synthesize name (entry_opts e))
  | None =>
      outcome_of (fetchMock url init) this
      = Thrown (Error (no_mock_message (getKey name url)
                         (join ", " (keys (mocks this) ++ keys (mockQueue this)))))
  end.
Proof.
  intros <- Hv. unfold outcome_of.
  destruct (get (getKey (resolved_method init) url) (mocks this)) as [e|] eqn:Hg.
  - now rewrite (fetchMock_hit _ _ _ e Hv Hg).
  - now rewrite (fetchMock_missing _ _ _ Hv Hg).
Qed.

(** C2. The method [fetchMock] validates and looks up with is [init.method],
    or "GET" when [init] or its method is absent, in capitals.
    (1) For a method written in ASCII there is a string that is the method in
    capitals, character by character, and the dispatch is decided by it: if
    it is not one of the supported names the error reports it, otherwise the
    key is built from it and the active entry of that key answers (or "No
    mock found" names that key); the call is the same as one given the
    method in capitals.
    (2) For each of the seven methods, every spelling whose capitals are the
    method's name is dispatched like the name itself, under the key of the
    name.
    (3) Without a method the key is "[GET] " and the url.
    (4) In particular "get" and "GET" are the same dispatch, under
    "[GET] " and the url. *)
Theorem C2_method_resolution (this : FetchMock) (url : string)
    (init : option RequestInit) :
  let given := default "GET"%string (init ≫= req_method) in
  (ascii_text given = true ->
   exists methodStr : string,
     in_capitals given methodStr
     /\ (if validateMethod methodStr then
           match get (getKey methodStr url) (mocks this) with
           | Some e =>
               outcome_of (fetchMock url init) this
               = Returned (synthesize methodStr (entry_opts e))
           | None =>
               outcome_of (fetchMock url init) this
               = Thrown (Error (no_mock_message (getKey methodStr url)
                                  (join ", " (keys (mocks this)
                                              ++ keys (mockQueue this)))))
           end
         else
           fetchMock url init this
           = (Thrown (Error ("Unsupported HTTP method: " ++ methodStr
                             ++ ". Supported methods: GET, POST, PUT, DELETE, PATCH, HEAD, OPTIONS")),
              this))
     /\ fetchMock url init this = fetchMock url (Some (mkInit (Some methodStr))) this)
  /\ (forall (m : HttpMethod) (spelling : string),
         in_capitals spelling (method_name m) ->
         fetchMock url (Some (mkInit (Some spelling))) this
         = fetchMock url (Some (mkInit (Some (method_name m)))) this
         /\ match get (getKey (method_name m) url) (mocks this) with
            | Some e =>
                outcome_of (fetchMock url (Some (mkInit (Some spelling)))) this
                = Returned (synthesize (method_name m) (entry_opts e))
            | None =>
                outcome_of (fetchMock url (Some (mkInit (Some spelling)))) this
                = Thrown (Error (no_mock_message (getKey (method_name m) url)
                                   (join ", " (keys (mocks this)
                                               ++ keys (mockQueue this)))))
            end)
  /\ (init ≫= req_method = None ->
      match get ("[GET] " ++ url)%string (mocks this) with
      | Some e =>
          outcome_of (fetchMock url init) this
          = Returned (synthesize "GET" (entry_opts e))
      | None =>
          outcome_of (fetchMock url init) this
          = Thrown (Error (no_mock_message ("[GET] " ++ url)
                             (join ", " (keys (mocks this) ++ keys (mockQueue this)))))
      end)
  /\ (fetchMock url (Some (mkInit (Some "get"%string))) this
      = fetchMock url (Some (mkInit (Some "GET"%string))) this
      /\ match get ("[GET] " ++ url)%string (mocks this) with
         | Some e =>
             outcome_of (fetchMock url (Some (mkInit (Some "get"%string)))) this
             = Returned (synthesize "GET" (entry_opts e))
         | None =>
             outcome_of (fetchMock url (Some (mkInit (Some "get"%string)))) this
             = Thrown (Error (no_mock_message ("[GET] " ++ url)
                                (join ", " (keys (mocks this)
                                            ++ keys (mockQueue this)))))
         end).
Proof.
  intros given.
  assert (forall (m : HttpMethod) (spelling : string),
             in_capitals spelling (method_name m) ->
             resolved_method (Some (mkInit (Some spelling))) = method_name m)
    as Hspelling.
  { intros m spelling Hup. unfold resolved_method. simpl.
    now apply in_capitals_fun. }
  split; [|split; [|split]].
  - intros _. exists (toUpperCase given).
    split; [apply in_capitals_toUpperCase|].
    change (toUpperCase given) with (resolved_method init). split.
    + destruct (validateMethod (resolved_method init)) eqn:Hv.
      * now apply dispatch_with_method.
      * now rewrite (fetchMock_unsupported _ _ _ Hv).
    + unfold fetchMock.
      fold (resolved_method (Some (mkInit (Some (resolved_method init))))).
      fold (resolved_method init).
      assert (resolved_method (Some (mkInit (Some (resolved_method init))))
              = resolved_method init) as ->; [|reflexivity].
      unfold resolved_method at 1. simpl. unfold resolved_method.
      apply toUpperCase_idem.
  - intros m spelling Hup. split.
    + unfold fetchMock. fold (resolved_method (Some (mkInit (Some spelling)))).
      fold (resolved_method (Some (mkInit (Some (method_name m))))).
      rewrite (Hspelling m spelling Hup).
      rewrite (Hspelling m (method_name m)); [reflexivity|].
      destruct m; simpl; intuition reflexivity.
    + apply dispatch_with_method; [now apply Hspelling | now destruct m].
  - intros Habsent.
    apply (dispatch_with_method this url init "GET"); [|reflexivity].
    unfold resolved_method. now rewrite Habsent.
  - split; [reflexivity|].
    now apply (dispatch_with_method this url (Some (mkInit (Some "get"%string))) "GET").
Qed.

(** A mock of GET /status answers a request whose method is written "gEt",
    and "trace" is reported as TRACE. *)
Lemma C2_method_resolution_witness :
  let st := exec (CallRegister GET (JStr "/status") None)
              (new_FetchMock (mkFetchMockOpts None)) in
  outcome_of (fetchMock "/status" (Some (mkInit (Some "gEt"%string)))) st
  = Returned (synthesize "GET" no_opts)
  /\ fetchMock "/status" (Some (mkInit (Some "trace"%string))) st
     = (Thrown (Error "Unsupported HTTP method: TRACE. Supported methods: GET, POST, PUT, DELETE, PATCH, HEAD, OPTIONS"),
        st).
Proof.
  intros st. split.
  - assert (in_capitals "gEt" (method_name GET)) as Hup
        by (simpl; unfold capital_of; simpl; intuition reflexivity).
    exact (proj2 (proj1 (proj2 (C2_method_resolution st "/status" None))
                    GET "gEt"%string Hup)).
  - destruct (proj1 (C2_method_resolution st "/status"
                       (Some (mkInit (Some "trace"%string)))) eq_refl)
      as (methodStr & Hup & Hrun & _).
    apply in_capitals_fun in Hup. simpl in Hup. subst methodStr.
    exact Hrun.
Defined.



(** C10. The two throws of [fetchMock] leave the instance exactly as it was:
    both tables, and with them every queue and every isUsed flag, are those
    the call was given.  For a method written in ASCII: when the method in
    capitals is not a supported one the call throws the unsupported-method
    error and returns the instance unchanged; when it is supported and its
    key has no active entry the call throws the "No mock found" error and
    returns the instance unchanged.  Both throws come before any write to the
    tables.  (What the host's Response constructor does with the arguments it
    is given after a match is not part of the model.) *)
Theorem C10_failed_dispatch_is_pure (this : FetchMock) (url : string)
    (init : option RequestInit) :
  ascii_text (default "GET"%string (init ≫= req_method)) = true ->
  (validateMethod (resolved_method init) = false ->
   fetchMock url init this
   = (Thrown (Error (unsupported_message (resolved_method init))), this))
  /\ (validateMethod (resolved_method init) = true ->
      get (getKey (resolved_method init) url) (mocks this) = None ->
      fetchMock url init this
      = (Thrown (Error (no_mock_message (getKey (resolved_method init) url)
                          (join ", " (keys (mocks this) ++ keys (mockQueue this))))),
         this)).
Proof.
  intros _. split.
  - intros Hv. unfold fetchMock. fold (resolved_method init). now rewrite Hv.
  - intros Hv Hg. unfold fetchMock. fold (resolved_method init). rewrite Hv.
    unfold_M. simpl. now rewrite Hg.
Qed.

(** A TRACE request, and a GET of an unknown url, against a registry holding
    a once-mock with a second one queued: both throw, and the registry they
    return is the one they were given. *)
Lemma C10_failed_dispatch_is_pure_witness :
  let once_opts := Some (mkMockOpts JNull None None None (Some true)) in
  let st := exec (CallRegister GET (JStr "/status") once_opts)
              (exec (CallRegister GET (JStr "/status") once_opts)
                 (new_FetchMock (mkFetchMockOpts None))) in
  state_after (fetchMock "/status" (Some (mkInit (Some "trace"%string)))) st = st
  /\ state_after (fetchMock "/missing" None) st = st.
Proof.
  intros once_opts st. split.
  - exact (f_equal snd
             (proj1 (C10_failed_dispatch_is_pure st "/status"
                       (Some (mkInit (Some "trace"%string))) eq_refl) eq_refl)).
  - exact (f_equal snd
             (proj2 (C10_failed_dispatch_is_pure st "/missing" None eq_refl)
                eq_refl eq_refl)).
Defined.

End Dispatch.

(** ** Response synthesis *)

Section Synthesis.
Import JsMap JsMapFacts.

Lemma text_headers_lookup (explicit : gmap string string) (name : string) :
  (explicit ∪ {[ "Content-Type"%string := "text/plain"%string ]}) !! name
  = match explicit !! name with
    | Some v => Some v
    | None => if decide (name = "Content-Type"%string)
              then Some "text/plain"%string else None
    end.
Proof.
  destruct (explicit !! name) as [v|] eqn:E.
  - now apply lookup_union_Some_l.
  - rewrite lookup_union_r by assumption.
    destruct (decide (name = "Content-Type"%string)) as [->|Hne].
    + apply lookup_singleton_eq.
    + now apply lookup_singleton_ne.
Qed.

(** C5. A dispatch that returns matched the active entry of its key, and
    the response is built from that entry's options in this order: for the
    method HEAD a null body with status, headers and statusText (defaults
    200, none, "OK"), whatever [data] is; otherwise a null body when [data]
    is undefined; otherwise, when [data] is a string, that text with the
    explicit headers plus Content-Type: text/plain wherever the explicit
    headers have no Content-Type of their own; otherwise [Response.json] of
    [data]. *)
Theorem C5_response_synthesis (this : FetchMock) (url : string)
    (init : option RequestInit) (r : Response) :
  outcome_of (fetchMock url init) this = Returned r ->
  exists e,
    get (getKey (resolved_method init) url) (mocks this) = Some e
    /\ let o := entry_opts e in
       let explicit := default (∅ : gmap string string) (headers o) in
       let plain := {| init_status := default 200%Z (status o);
                       init_headers := explicit;
                       init_statusText := default "OK"%string (statusText o) |} in
       if decide (resolved_method init = "HEAD"%string) then
         r = NewResponse None plain
       else
         match data o with
         | JUndefined => r = NewResponse None plain
         | JStr text =>
             exists merged : gmap string string,
               r = NewResponse (Some text)
                     {| init_status := default 200%Z (status o);
                        init_headers := merged;
                        init_statusText := default "OK"%string (statusText o) |}
               /\ forall name : string,
                   merged !! name
                   = match explicit !! name with
                     | Some v => Some v
                     | None => if decide (name = "Content-Type"%string)
                               then Some "text/plain"%string else None
                     end
         | payload => r = ResponseJson payload plain
         end.
Proof.
  unfold outcome_of.
  destruct (validateMethod (resolved_method init)) eqn:Hv;
    [|rewrite (fetchMock_unsupported _ _ _ Hv); discriminate].
  destruct (get (getKey (resolved_method init) url) (mocks this)) as [e|] eqn:Hg;
    [|rewrite (fetchMock_missing _ _ _ Hv Hg); discriminate].
  rewrite (fetchMock_hit _ _ _ e Hv Hg). simpl. intros [= <-].
  exists e. split; [reflexivity|]. simpl. unfold synthesize.
  destruct (decide (resolved_method init = "HEAD"%string)); [reflexivity|].
  destruct (data (entry_opts e)); try reflexivity.
  eexists. split; [reflexivity|]. apply text_headers_lookup.
Qed.

(** A HEAD request against a mock that carries [data]: no body. *)
Lemma C5_response_synthesis_witness :
  exists e,
    get "[HEAD] /check"
      (mocks (exec (CallRegister HEAD (JStr "/check")
                      (Some (mkMockOpts (JStr "text") None None None None)))
                (new_FetchMock (mkFetchMockOpts None)))) = Some e
    /\ NewResponse None
         {| init_status := 200; init_headers := ∅; init_statusText := "OK" |}
       = NewResponse None
           {| init_status := default 200%Z (status (entry_opts e));
              init_headers := default ∅ (headers (entry_opts e));
              init_statusText := default "OK"%string (statusText (entry_opts e)) |}.
Proof.
  destruct (C5_response_synthesis
              (exec (CallRegister HEAD (JStr "/check")
                       (Some (mkMockOpts (JStr "text") None None None None)))
                 (new_FetchMock (mkFetchMockOpts None)))
              "/check" (Some (mkInit (Some "head"%string)))
              (NewResponse None
                 {| init_status := 200; init_headers := ∅; init_statusText := "OK" |})
              eq_refl) as (e & He & Hr).
  exists e. split; [exact He | exact Hr].
Defined.

End Synthesis.

(** ** The overflow queues *)

Section Queues.
Import JsMap JsMapFacts.

Lemma queues_nonempty_mockRequest method url opts this :
  queues_nonempty this ->
  queues_nonempty (state_after (mockRequest method url opts) this).
Proof.
  intros Hq. unfold state_after.
  destruct (validateUrl url) as [message|] eqn:Hv.
  { now rewrite (mockRequest_invalid _ _ _ _ _ Hv). }
  rewrite (mockRequest_valid _ _ _ _ Hv). simpl.
  set (key := getKey _ _).
  destruct (has key (mocks this)); [|exact Hq].
  intros k q. simpl. destruct (decide (key = k)) as [<-|Hne].
  - rewrite get_set_eq. intros [= <-].
    now destruct (default [] (get key (mockQueue this))).
  - rewrite get_set_ne by assumption. apply Hq.
Qed.

Lemma queues_nonempty_fetchMock url init this :
  queues_nonempty this ->
  queues_nonempty (state_after (fetchMock url init) this).
Proof.
  intros Hq. unfold state_after.
  destruct (validateMethod (resolved_method init)) eqn:Hv;
    [|now rewrite fetchMock_unsupported].
  set (key := getKey (resolved_method init) url).
  destruct (get key (mocks this)) as [e|] eqn:Hg;
    [|now rewrite fetchMock_missing].
  rewrite (fetchMock_hit _ _ _ e Hv Hg). simpl. fold key.
  destruct (default false (once (entry_opts e))); [|exact Hq].
  destruct (get key (mockQueue this)) as [[|nextMock rest]|] eqn:Hqk;
    try exact Hq.
  intros k q. simpl. destruct (decide (key = k)) as [<-|Hne].
  - destruct rest as [|r rest].
    + now rewrite get_delete_eq.
    + rewrite get_set_eq. now intros [= <-].
  - destruct rest as [|r rest].
    + rewrite get_delete_ne by assumption. apply Hq.
    + rewrite get_set_ne by assumption. apply Hq.
Qed.

(** C6. On every instance a test can build, a key that has an overflow queue
    has a non-empty one.  The property holds of a new instance and of the
    instance [reset] leaves, and every call (registration, dispatch, reset,
    verification) takes an instance that has it to one that has it. *)
Theorem C6_queues_nonempty (this : FetchMock) :
  (reachable this -> queues_nonempty this)
  /\ (forall c : Call, queues_nonempty this -> queues_nonempty (exec c this))
  /\ queues_nonempty (exec CallReset this)
  /\ (forall opts, queues_nonempty (new_FetchMock opts)).
Proof.
  assert (forall st c, queues_nonempty st -> queues_nonempty (exec c st)) as Hstep.
  { intros st [method url opts|url init| |] Hq; simpl.
    - now apply queues_nonempty_mockRequest.
    - now apply queues_nonempty_fetchMock.
    - intros k q; discriminate.
    - unfold state_after. now rewrite assertAllMocksUsed_spec. }
  repeat split.
  - induction 1 as [opts|c st _ IH]; [intros k q; discriminate | now apply Hstep].
  - intros c. apply Hstep.
  - intros k q; discriminate.
  - intros opts k q; discriminate.
Qed.

(** Two once-mocks under one key: the dispatch that promotes the second
    empties the queue, and the key leaves the overflow table. *)
Lemma C6_queues_nonempty_witness :
  let once_opts := Some (mkMockOpts JUndefined None None None (Some true)) in
  let st := exec (CallRegister GET (JStr "/a") once_opts)
              (exec (CallRegister GET (JStr "/a") once_opts)
                 (new_FetchMock (mkFetchMockOpts None))) in
  queues_nonempty st
  /\ queues_nonempty (exec (CallFetch "/a" None) st)
  /\ mockQueue (exec (CallFetch "/a" None) st) = [].
Proof.
  intros once_opts st.
  assert (queues_nonempty st) as Hst.
  { apply (proj1 (C6_queues_nonempty st)). do 2 apply reach_call. apply reach_new. }
  split; [exact Hst|]. split; [|reflexivity].
  exact (proj1 (proj2 (C6_queues_nonempty st)) (CallFetch "/a" None) Hst).
Defined.

End Queues.

(** ** The isUsed flag *)

Section IsUsed.
Import JsMap JsMapFacts.

Lemma set_used_id (e : MockEntry) : isUsed e = true -> set_used e = e.
Proof. destruct e as [o u]. simpl. now intros ->. Qed.

(** Calls that do not match the active entry of [key] leave it alone. *)
Lemma active_kept (this : FetchMock) (c : Call) (key : string) (e : MockEntry) :
  get key (mocks this) = Some e ->
  c <> CallReset ->
  (forall url init, c = CallFetch url init ->
     validateMethod (resolved_method init) = true ->
     getKey (resolved_method init) url <> key) ->
  get key (mocks (exec c this)) = Some e.
Proof.
  intros Hg Hreset Hother.
  destruct c as [method url opts|url init| |]; simpl; unfold state_after.
  - destruct (validateUrl url) as [message|] eqn:Hv.
    { now rewrite (mockRequest_invalid _ _ _ _ _ Hv). }
    rewrite (mockRequest_valid _ _ _ _ Hv). simpl.
    set (key' := getKey _ _).
    destruct (has key' (mocks this)) eqn:Hhas; [assumption|]. simpl.
    apply has_false in Hhas. rewrite get_set_ne; [assumption|]. congruence.
  - destruct (validateMethod (resolved_method init)) eqn:Hv;
      [|now rewrite fetchMock_unsupported].
    specialize (Hother url init eq_refl Hv).
    set (key0 := getKey (resolved_method init) url) in *.
    destruct (get key0 (mocks this)) as [e0|] eqn:Hg0;
      [|now rewrite fetchMock_missing].
    rewrite (fetchMock_hit _ _ _ e0 Hv Hg0). simpl. fold key0.
    destruct (default false (once (entry_opts e0))); simpl.
    + destruct (get key0 (mockQueue this)) as [[|nextMock rest]|]; simpl;
        rewrite ?get_set_ne, get_delete_ne by assumption; assumption.
    + now rewrite get_set_ne.
  - congruence.
  - now rewrite assertAllMocksUsed_spec.
Qed.





End IsUsed.

(** ** Verification *)

Section Verify.
Import JsMap JsMapFacts.

Lemma In_all_entries (this : FetchMock) (key : string) (e : MockEntry) :
  In (key, e) (all_entries this)
  <-> In (key, e) (mocks this)
      \/ exists queue, In (key, queue) (mockQueue this) /\ In e queue.
Proof.
  unfold all_entries. rewrite in_app_iff, in_flat_map. split.
  - intros [H|([k q] & Hq & Hin)]; [now left | right].
    apply in_map_iff in Hin as (e' & [= <- <-] & He'). now exists q.
  - intros [H|(q & Hq & He)]; [now left | right].
    exists (key, q). split; [assumption | now apply in_map].
Qed.

Lemma find_None_iff {A} (p : A -> bool) (l : list A) :
  List.find p l = None <-> forall x, In x l -> p x = false.
Proof.
  split; [apply find_none|].
  intros H. destruct (List.find p l) as [x|] eqn:E; [|reflexivity].
  apply find_some in E as [Hin Hp]. rewrite (H x Hin) in Hp. discriminate.
Qed.

Lemma In_delete {V} (k k' : string) (v : V) (m : list (string * V)) :
  In (k', v) (delete k m) -> In (k', v) m /\ k' <> k.
Proof.
  induction m as [|[k0 v0] m IH]; simpl; [tauto|].
  destruct (decide (k = k0)) as [->|Hne]; simpl.
  - intros H. destruct (IH H). auto.
  - intros [[= -> ->]|H]; [split; [now left | congruence]|].
    destruct (IH H). auto.
Qed.

Lemma In_get_first {V} (k : string) (v : V) (m : list (string * V)) :
  get k ((k, v) :: m) = Some v.
Proof. simpl. now rewrite decide_True. Qed.

(** C9. [assertAllMocksUsed] throws exactly when some entry of the active
    table or of some overflow queue has isUsed false, and returns exactly
    when every entry of both has isUsed true; what it throws is the failed
    expectation labelled with the key of an unused entry; it changes
    nothing.  A once-entry that a dispatch has consumed is in neither table:
    when every other entry is used, verification passes after that
    dispatch. *)
Theorem C9_assertAllMocksUsed (this : FetchMock) :
  let unused_active :=
    exists key e, In (key, e) (mocks this) /\ isUsed e = false in
  let unused_queued :=
    exists key queue e,
      In (key, queue) (mockQueue this) /\ In e queue /\ isUsed e = false in
  ((exists x, outcome_of assertAllMocksUsed this = Thrown x)
   <-> unused_active \/ unused_queued)
  /\ (outcome_of assertAllMocksUsed this = Returned tt
      <-> (forall key e, In (key, e) (mocks this) -> isUsed e = true)
          /\ (forall key queue e,
                 In (key, queue) (mockQueue this) -> In e queue -> isUsed e = true))
  /\ (forall x, outcome_of assertAllMocksUsed this = Thrown x ->
      exists key e, x = ExpectFailed ("Fetch mock " ++ key ++ " was not used")
                    /\ In (key, e) (all_entries this) /\ isUsed e = false)
  /\ state_after assertAllMocksUsed this = this
  /\ (reachable this ->
      forall url init e,
        validateMethod (resolved_method init) = true ->
        get (getKey (resolved_method init) url) (mocks this) = Some e ->
        default false (once (entry_opts e)) = true ->
        (forall key' e', In (key', e') (mocks this) ->
                         key' <> getKey (resolved_method init) url ->
                         isUsed e' = true) ->
        (forall key' queue e', In (key', queue) (mockQueue this) -> In e' queue ->
                               isUsed e' = true) ->
        outcome_of assertAllMocksUsed (exec (CallFetch url init) this) = Returned tt).
Proof.
  intros unused_active unused_queued.
  assert (forall st, outcome_of assertAllMocksUsed st = Returned tt
            <-> forall key e, In (key, e) (all_entries st) -> isUsed e = true)
    as Hpass.
  { intros st. unfold outcome_of. rewrite assertAllMocksUsed_spec. simpl.
    destruct (List.find is_unused (all_entries st)) as [[k e]|] eqn:E.
    - split; [discriminate|]. intros H.
      apply find_some in E as [Hin Hu]. unfold is_unused in Hu. simpl in Hu.
      rewrite (H k e Hin) in Hu. discriminate.
    - split; [|reflexivity]. intros _ key e Hin.
      apply (proj1 (find_None_iff _ _) E) in Hin.
      unfold is_unused in Hin. simpl in Hin. now destruct (isUsed e). }
  assert (forall x, outcome_of assertAllMocksUsed this = Thrown x ->
            exists key e, x = ExpectFailed (unused_label key)
                          /\ In (key, e) (all_entries this) /\ isUsed e = false)
    as Hthrown.
  { intros x. unfold outcome_of. rewrite assertAllMocksUsed_spec. simpl.
    destruct (List.find is_unused (all_entries this)) as [[k e]|] eqn:E;
      [|discriminate].
    intros [= <-]. apply find_some in E as [Hin Hu].
    exists k, e. repeat split; [assumption|].
    unfold is_unused in Hu. simpl in Hu. now destruct (isUsed e). }
  split; [|split; [|split; [|split]]].
  - split.
    + intros [x Hx]. destruct (Hthrown x Hx) as (key & e & _ & Hin & Hu).
      apply In_all_entries in Hin as [Hin|(q & Hq & He)].
      * left. now exists key, e.
      * right. now exists key, q, e.
    + intros Hbad.
      destruct (outcome_of assertAllMocksUsed this) as [[]|x] eqn:E;
        [|now exists x].
      exfalso. pose proof (proj1 (Hpass this) E) as Hall.
      destruct Hbad as [(key & e & Hin & Hu)|(key & q & e & Hq & He & Hu)].
      * rewrite (Hall key e) in Hu; [discriminate|].
        apply In_all_entries. now left.
      * rewrite (Hall key e) in Hu; [discriminate|].
        apply In_all_entries. right. now exists q.
  - rewrite Hpass. split.
    + intros Hall. split.
      * intros key e Hin. apply (Hall key). apply In_all_entries. now left.
      * intros key q e Hq He. apply (Hall key). apply In_all_entries.
        right. now exists q.
    + intros [Ha Hq] key e Hin.
      apply In_all_entries in Hin as [Hin|(q & Hin & He)]; eauto.
  - exact Hthrown.
  - unfold state_after. now rewrite assertAllMocksUsed_spec.
  - intros Hreach url init e Hv Hg Honce Hothers Hqueued.
    apply reachable_wf in Hreach. destruct Hreach as [_ _ Hqueue _ _].
    assert (mockQueue this = []) as Hempty.
    { destruct (mockQueue this) as [|[k q] rest] eqn:Eq; [reflexivity|].
      exfalso. destruct (Hqueue k q (In_get_first k q rest)) as (Hne & _ & Hall).
      destruct q as [|e' q]; [congruence|].
      apply Forall_cons in Hall as [Hu _].
      rewrite (Hqueued k (e' :: q) e') in Hu; [discriminate | now left | now left]. }
    apply Hpass. intros key e0 Hin. revert Hin. simpl. unfold state_after.
    rewrite (fetchMock_hit _ _ _ e Hv Hg). simpl. rewrite Honce, Hempty. simpl.
    intros Hin. apply In_all_entries in Hin as [Hin|(q & [] & _)].
    simpl in Hin. apply In_delete in Hin as [Hin Hne]. now apply (Hothers key).
Qed.

(** The once-mock of the test suite: unused it fails verification, and
    after the dispatch that consumes it verification passes. *)
Lemma C9_assertAllMocksUsed_witness :
  let st := exec (CallRegister GET (JStr "/data")
                    (Some (mkMockOpts (JNum 1) None None None (Some true))))
              (new_FetchMock (mkFetchMockOpts None)) in
  (exists x, outcome_of assertAllMocksUsed st = Thrown x)
  /\ outcome_of assertAllMocksUsed (exec (CallFetch "/data" None) st) = Returned tt.
Proof.
  intros st. split.
  - apply (proj1 (C9_assertAllMocksUsed st)). left.
    exists "[GET] /data"%string,
      (new_entry (Some (mkMockOpts (JNum 1) None None None (Some true)))).
    split; [now left | reflexivity].
  - destruct (C9_assertAllMocksUsed st) as (_ & _ & _ & _ & Honce).
    apply (Honce (reach_call _ _ (reach_new _)) "/data"%string None
             (new_entry (Some (mkMockOpts (JNum 1) None None None (Some true)))));
      try reflexivity.
    + intros key' e' [[= <- <-]|[]] Hne. now destruct Hne.
    + intros key' queue e' [].
Defined.

End Verify.

(** ** Sequences of once-mocks *)

Section OnceSequence.
Import JsMap JsMapFacts.

Variables (this : FetchMock) (method : HttpMethod) (url : JsValue).

Let key : string := getKey (method_name method) (full_url this (as_string url)).

Hypothesis Hvalid : validateUrl url = None.
Hypothesis Hactive : get key (mocks this) = None.
Hypothesis Hqueued : get key (mockQueue this) = None.

Lemma validateMethod_method_name (m : HttpMethod) : validateMethod (method_name m) = true.
Proof. now destruct m. Qed.

Lemma eta_FetchMock (st : FetchMock) :
  {| baseUrl := baseUrl st; mocks := mocks st; mockQueue := mockQueue st |} = st.
Proof. now destruct st. Qed.

Lemma baseUrl_loaded es : baseUrl (loaded this key es) = baseUrl this.
Proof. now destruct es. Qed.

Lemma entries_of_loaded es : entries_of key (loaded this key es) = es.
Proof.
  unfold entries_of. destruct es as [|e q]; simpl.
  - now rewrite Hactive, Hqueued.
  - rewrite get_snoc by assumption. simpl. f_equal.
    destruct q; [now rewrite Hqueued | now rewrite get_snoc].
Qed.

Lemma mockRequest_loaded opts es :
  state_after (mockRequest method url opts) (loaded this key es)
  = loaded this key (es ++ [new_entry opts]).
Proof.
  unfold state_after. rewrite (mockRequest_valid _ _ _ _ Hvalid). simpl.
  assert (full_url (loaded this key es) (as_string url) = full_url this (as_string url))
    as -> by (unfold full_url; now rewrite baseUrl_loaded).
  fold key. destruct es as [|e q]; simpl.
  - apply has_false in Hactive. rewrite Hactive.
    now rewrite set_absent by (now apply has_false).
  - unfold has. rewrite get_snoc by assumption. f_equal.
    destruct q as [|x q]; simpl.
    + rewrite Hqueued. simpl. now apply set_absent.
    + rewrite get_snoc by assumption. simpl. now apply set_snoc.
Qed.

Lemma register_all_loaded specs es :
  register_all method url specs (loaded this key es)
  = loaded this key (es ++ map (fun o => new_entry (Some o)) specs).
Proof.
  unfold register_all. revert es.
  induction specs as [|o specs IH]; intros es; simpl.
  - now rewrite app_nil_r.
  - rewrite mockRequest_loaded, IH. now rewrite <- app_assoc.
Qed.

Lemma fetchMock_loaded init e q :
  resolved_method init = method_name method ->
  default false (once (entry_opts e)) = true ->
  fetchMock (full_url this (as_string url)) init (loaded this key (e :: q))
  = (Returned (synthesize (method_name method) (entry_opts e)), loaded this key q).
Proof.
  intros Hinit Honce.
  assert (get (getKey (resolved_method init) (full_url this (as_string url)))
            (mocks (loaded this key (e :: q))) = Some e) as Hg.
  { rewrite Hinit. fold key. simpl. now apply get_snoc. }
  rewrite (fetchMock_hit _ _ _ e); [|rewrite Hinit; apply validateMethod_method_name|exact Hg].
  rewrite Hinit, Honce. fold key. f_equal. simpl.
  rewrite delete_snoc by assumption.
  destruct q as [|nextMock rest]; simpl.
  - rewrite Hqueued. apply eta_FetchMock.
  - rewrite get_snoc by assumption.
    rewrite set_absent by assumption. f_equal.
    destruct rest; [now apply delete_snoc | now apply set_snoc].
Qed.

Lemma fetch_times_loaded init served pending :
  resolved_method init = method_name method ->
  Forall (fun e => default false (once (entry_opts e)) = true) served ->
  fetch_times (length served) (full_url this (as_string url)) init
    (loaded this key (served ++ pending))
  = (map (fun e => Returned (synthesize (method_name method) (entry_opts e))) served,
     loaded this key pending).
Proof.
  intros Hinit. induction served as [|e served IH]; intros Honce; [reflexivity|].
  apply Forall_cons in Honce as [He Hes].
  cbn [length fetch_times app].
  rewrite (fetchMock_loaded init e (served ++ pending) Hinit He).
  now rewrite (IH Hes).
Qed.

End OnceSequence.

Section OnceSequenceClaim.
Import JsMap JsMapFacts.

Lemma fetch_times_add (a b : nat) url init this :
  fetch_times (a + b) url init this
  = ((fetch_times a url init this).1
     ++ (fetch_times b url init (fetch_times a url init this).2).1,
     (fetch_times b url init (fetch_times a url init this).2).2).
Proof.
  revert this. induction a as [|a IH]; intros this; simpl.
  - now destruct (fetch_times b url init this).
  - destruct (fetchMock url init this) as [r this'].
    rewrite IH. now destruct (fetch_times a url init this').
Qed.

(** C3. Let the key of (method, url) be free in both tables, and register
    a list of options that all have once: true under it.  Then as many
    dispatches as there were registrations return, in registration order,
    the responses built from those options; after any number of them the
    entries under the key are exactly the registrations not yet served, the
    oldest one active; the registry ends as it began; and the next dispatch
    throws the "No mock found" error of that key. *)
Theorem C3_once_sequence (this : FetchMock) (method : HttpMethod) (url : JsValue)
    (init : option RequestInit) (specs : list MockOpts) :
  let dispatchUrl := full_url this (as_string url) in
  let key := getKey (method_name method) dispatchUrl in
  let registered := register_all method url specs this in
  Forall (fun o => once o = Some true) specs ->
  validateUrl url = None ->
  resolved_method init = method_name method ->
  get key (mocks this) = None ->
  get key (mockQueue this) = None ->
  fetch_times (S (length specs)) dispatchUrl init registered
  = (map (fun o => Returned (synthesize (method_name method) o)) specs
     ++ [Thrown (Error (no_mock_message key
                          (join ", " (keys (mocks this) ++ keys (mockQueue this)))))],
     this)
  /\ (forall served pending,
         specs = served ++ pending ->
         entries_of key (fetch_times (length served) dispatchUrl init registered).2
         = map (fun o => new_entry (Some o)) pending).
Proof.
  intros dispatchUrl key registered Honce Hvalid Hinit Hactive Hqueued.
  subst dispatchUrl key registered.
  set (key := getKey (method_name method) (full_url this (as_string url))) in *.
  assert (forall l : list MockOpts,
             Forall (fun o => once o = Some true) l ->
             Forall (fun e => default false (once (entry_opts e)) = true)
               (map (fun o => new_entry (Some o)) l)) as Hentries.
  { intros l Hl. apply Forall_map. eapply Forall_impl; [exact Hl|].
    intros o Ho. simpl. now rewrite Ho. }
  assert (register_all method url specs this
          = loaded this key (map (fun o => new_entry (Some o)) specs)) as Hreg.
  { exact (register_all_loaded this method url Hvalid Hactive Hqueued specs []). }
  split.
  - pose proof (fetch_times_loaded this method url Hactive Hqueued init
                  (map (fun o => new_entry (Some o)) specs) []
                  Hinit (Hentries specs Honce)) as Hrun.
    rewrite app_nil_r, length_map in Hrun. fold key in Hrun.
    replace (S (length specs)) with (length specs + 1) by lia.
    rewrite fetch_times_add, Hreg, Hrun.
    cbn [fst snd loaded fetch_times].
    rewrite fetchMock_missing;
      [|rewrite Hinit; apply validateMethod_method_name|now rewrite Hinit].
    rewrite Hinit. cbn [fst snd]. now rewrite map_map.
  - intros served pending ->. rewrite Hreg, map_app.
    apply Forall_app in Honce as [Hserved _].
    replace (length served) with (length (map (fun o => new_entry (Some o)) served))
      by apply length_map.
    rewrite (fetch_times_loaded this method url Hactive Hqueued init _ _
               Hinit (Hentries served Hserved)).
    cbn [snd]. now apply entries_of_loaded.
Qed.

(** Two once-mocks of GET /data on a registry that already holds a mock of
    another key: two answers in order, then the error. *)
Lemma C3_once_sequence_witness :
  let st := exec (CallRegister POST (JStr "/other") None)
              (new_FetchMock (mkFetchMockOpts (Some "https://api.example.com/"%string))) in
  let first := mkMockOpts (JNum 1) None None None (Some true) in
  let second := mkMockOpts (JStr "two") (Some 404%Z) None None (Some true) in
  fetch_times 3 "https://api.example.com/data" None
    (register_all GET (JStr "/data") [first; second] st)
  = ([Returned (synthesize "GET" first); Returned (synthesize "GET" second);
      Thrown (Error "No mock found for [GET] https://api.example.com/data. Available mocks: [POST] https://api.example.com/other")],
     st).
Proof.
  intros st first second.
  refine (proj1 (C3_once_sequence st GET (JStr "/data") None [first; second]
                   _ eq_refl eq_refl eq_refl eq_refl)).
  repeat constructor.
Defined.

End OnceSequenceClaim.

(** ** The two revisions compared *)

Section Revisions.
Import JsMap JsMapFacts.

(** Registration is the same in both revisions unless the base URL ends in
    a slash. *)
Lemma rev0_mockRequest_agrees method url opts this :
  (forall b, baseUrl this <> (b ++ "/")%string) ->
  Rev0.mockRequest method url opts this = mockRequest method url opts this.
Proof.
  intros Hbase. unfold Rev0.mockRequest, mockRequest.
  destruct (validateUrl url); [reflexivity|].
  unfold_M. simpl. now rewrite (joinBaseUrl_no_slash _ _ Hbase).
Qed.

(** With a base URL that ends in a slash the earlier revision keeps both
    slashes. *)
Lemma rev0_mockRequest_doubled_slash :
  keys (mocks (state_after (Rev0.mockRequest GET (JStr "/users") None)
                 (new_FetchMock (mkFetchMockOpts (Some "https://api.example.com/"%string)))))
  = ["[GET] https://api.example.com//users"%string].
Proof. reflexivity. Qed.

(** Dispatch is the same in both revisions for a method given in upper
    case, and for a call without a method. *)
Lemma rev0_fetchMock_agrees url init this :
  resolved_method init = default DEFAULT_METHOD (init ≫= req_method) ->
  Rev0.fetchMock url init this = fetchMock url init this.
Proof.
  intros Hup. unfold Rev0.fetchMock, fetchMock.
  fold (resolved_method init). now rewrite Hup.
Qed.

(** The earlier revision rejects a lower-case method. *)
Lemma rev0_fetchMock_lower_case url this :
  Rev0.fetchMock url (Some (mkInit (Some "get"%string))) this
  = (Thrown (Error (unsupported_message "get")), this).
Proof. reflexivity. Qed.

End Revisions.

(** ** The scenarios of the test suite *)

Section Scenarios.

Let fresh : FetchMock := new_FetchMock (mkFetchMockOpts None).

Example once_then_persistent :
  let first := mkMockOpts (JNum 1) None None None (Some true) in
  let second := mkMockOpts (JNum 2) None None None None in
  (fetch_times 3 "https://api.example.com/data" None
     (exec (CallRegister GET (JStr "https://api.example.com/data") (Some second))
        (exec (CallRegister GET (JStr "https://api.example.com/data") (Some first))
           fresh))).1
  = [Returned (synthesize "GET" first); Returned (synthesize "GET" second);
     Returned (synthesize "GET" second)].
Proof. reflexivity. Qed.

Example reset_clears_all_mocks :
  outcome_of (fetchMock "https://api.example.com/data" None)
    (exec CallReset
       (exec (CallRegister GET (JStr "https://api.example.com/data") None) fresh))
  = Thrown (Error "No mock found for [GET] https://api.example.com/data").
Proof. reflexivity. Qed.

Example available_mocks_listed :
  outcome_of (fetchMock "https://api.example.com/unknown" None)
    (exec (CallRegister POST (JStr "https://api.example.com/users") None)
       (exec (CallRegister GET (JStr "https://api.example.com/users") None) fresh))
  = Thrown (Error "No mock found for [GET] https://api.example.com/unknown. Available mocks: [GET] https://api.example.com/users, [POST] https://api.example.com/users").
Proof. reflexivity. Qed.

Example unsupported_method :
  outcome_of (fetchMock "https://api.example.com/data"
                (Some (mkInit (Some "TRACE"%string)))) fresh
  = Thrown (Error "Unsupported HTTP method: TRACE. Supported methods: GET, POST, PUT, DELETE, PATCH, HEAD, OPTIONS").
Proof. reflexivity. Qed.

Example base_url_without_slash :
  JsMap.keys (mocks (exec (CallRegister GET (JStr "/users") None)
                       (new_FetchMock (mkFetchMockOpts (Some "https://api.example.com"%string)))))
  = ["[GET] https://api.example.com/users"%string].
Proof. reflexivity. Qed.

Example text_response_explicit_content_type :
  let explicit : gmap string string := {[ "Content-Type"%string := "text/html"%string ]} in
  init_headers (response_init
    (synthesize "GET" (mkMockOpts (JStr "OK") None (Some explicit) None None)))
  !! "Content-Type"%string = Some "text/html"%string.
Proof. reflexivity. Qed.

End Scenarios.


(** * Further properties of the registry *)

(** ** Keys and methods *)

Section KeysAndMethods.
Import JsMap JsMapFacts.

Lemma append_inj_l (a x y : string) : (a ++ x)%string = (a ++ y)%string -> x = y.
Proof.
  induction a as [|c a IH]; [now rewrite !append_nil_l|].
  rewrite !append_cons. intros [= H]. now apply IH.
Qed.

Lemma getKey_inj_url (method u1 u2 : string) :
  getKey method u1 = getKey method u2 -> u1 = u2.
Proof.
  unfold getKey. intros H.
  apply append_inj_l in H. apply append_inj_l in H. now apply append_inj_l in H.
Qed.

(** X1. Two registrations share a slot only when they name the same method
    and the same url: on the methods of [HttpMethod], [getKey] is injective. *)
Theorem X1_getKey_injective (m1 m2 : HttpMethod) (u1 u2 : string) :
  getKey (method_name m1) u1 = getKey (method_name m2) u2 ->
  m1 = m2 /\ u1 = u2.
Proof.
  intros H.
  assert (m1 = m2) as ->.
  { destruct m1, m2; try reflexivity; vm_compute in H; discriminate H. }
  split; [reflexivity | now apply getKey_inj_url in H].
Qed.

Lemma X1_getKey_injective_witness :
  PUT = PUT /\ "/users"%string = "/users"%string.
Proof. exact (X1_getKey_injective PUT PUT "/users" "/users" eq_refl). Defined.

(** X2. The methods [fetchMock] accepts (after upper-casing) are exactly the
    names of the methods a mock can be registered for. *)
Theorem X2_validateMethod_iff (s : string) :
  validateMethod s = true <-> exists m : HttpMethod, s = method_name m.
Proof.
  unfold validateMethod, validMethods. rewrite bool_decide_eq_true.
  rewrite !elem_of_cons, elem_of_nil. split.
  - intros [->|[->|[->|[->|[->|[->|[->|[]]]]]]]];
      [exists GET|exists POST|exists PUT|exists DELETE|exists PATCH
      |exists HEAD|exists OPTIONS]; reflexivity.
  - intros [m ->]. destruct m; simpl; tauto.
Qed.

End KeysAndMethods.

(** ** The entries of a key as a queue *)

Section PerKeyQueue.
Import JsMap JsMapFacts.

Lemma wf_no_orphan_queue (this : FetchMock) (key : string) :
  wf this -> get key (mocks this) = None -> get key (mockQueue this) = None.
Proof.
  intros [_ _ Hqueue _ _] Hg.
  destruct (get key (mockQueue this)) as [q|] eqn:Hq; [|reflexivity].
  destruct (Hqueue key q Hq) as (_ & [e He] & _). congruence.
Qed.

(** X3. On an instance a test can build, a valid registration puts its entry
    behind every entry already filed under its key, and changes the entries
    of no other key. *)
Theorem X3_registration_appends (this : FetchMock) (method : HttpMethod)
    (url : JsValue) (opts : option MockOpts) :
  reachable this ->
  validateUrl url = None ->
  let key := getKey (method_name method) (full_url this (as_string url)) in
  let after := exec (CallRegister method url opts) this in
  entries_of key after = entries_of key this ++ [new_entry opts]
  /\ (forall key', key' <> key -> entries_of key' after = entries_of key' this).
Proof.
  intros Hreach Hv key after. apply reachable_wf in Hreach.
  subst after. simpl. unfold state_after, entries_of.
  rewrite (mockRequest_valid _ _ _ _ Hv). simpl. fold key.
  destruct (has key (mocks this)) eqn:Hhas; simpl.
  - split.
    + rewrite get_set_eq. simpl. now rewrite app_assoc.
    + intros key' Hne. rewrite get_set_ne by congruence. reflexivity.
  - apply has_false in Hhas.
    rewrite (wf_no_orphan_queue this key Hreach Hhas), Hhas, get_set_eq.
    split; [reflexivity|].
    intros key' Hne. rewrite get_set_ne by congruence. reflexivity.
Qed.

(** Three registrations of one key on a new instance line up in the order
    they were made. *)
Lemma X3_registration_appends_witness :
  let st := exec (CallRegister GET (JStr "/a") None)
              (exec (CallRegister GET (JStr "/a") None)
                 (new_FetchMock (mkFetchMockOpts None))) in
  let third := Some (mkMockOpts JNull None None None None) in
  entries_of "[GET] /a" (exec (CallRegister GET (JStr "/a") third) st)
  = entries_of "[GET] /a" st ++ [new_entry third].
Proof.
  intros st third.
  refine (proj1 (X3_registration_appends st GET (JStr "/a") third _ eq_refl)).
  do 2 apply reach_call. apply reach_new.
Defined.

(** X4. On an instance a test can build, a dispatch with a supported method
    looks only at the first entry filed under its key: with none it throws
    and changes nothing; otherwise it answers from that entry, which then
    leaves (once) or stays as used (persistent), the entries behind it
    keeping their order.  The entries of every other key are untouched. *)
Theorem X4_dispatch_serves_head (this : FetchMock) (url : string)
    (init : option RequestInit) :
  reachable this ->
  validateMethod (resolved_method init) = true ->
  let key := getKey (resolved_method init) url in
  let after := exec (CallFetch url init) this in
  match entries_of key this with
  | [] =>
      fetchMock url init this
      = (Thrown (Error (no_mock_message key
                          (join ", " (keys (mocks this) ++ keys (mockQueue this))))),
         this)
  | e :: rest =>
      outcome_of (fetchMock url init) this
      = Returned (synthesize (resolved_method init) (entry_opts e))
      /\ entries_of key after
         = if default false (once (entry_opts e)) then rest
           else {| entry_opts := entry_opts e; isUsed := true |} :: rest
  end
  /\ (forall key', key' <> key -> entries_of key' after = entries_of key' this).
Proof.
  intros Hreach Hv key after. apply reachable_wf in Hreach.
  subst after. simpl. unfold state_after, outcome_of, entries_of.
  destruct (get key (mocks this)) as [e|] eqn:Hg.
  - rewrite (fetchMock_hit _ _ _ e Hv Hg). simpl. fold key.
    destruct (default false (once (entry_opts e))); simpl.
    + destruct (get key (mockQueue this)) as [[|nextMock rest]|] eqn:Hq; simpl.
      * rewrite get_delete_eq, Hq. simpl. repeat split.
        intros key' Hne. rewrite get_delete_ne by congruence. reflexivity.
      * rewrite get_set_eq. simpl. repeat split.
        -- destruct rest; [now rewrite get_delete_eq | now rewrite get_set_eq].
        -- intros key' Hne.
           rewrite get_set_ne, get_delete_ne by congruence. f_equal.
           destruct rest; [now rewrite get_delete_ne by congruence
                          | now rewrite get_set_ne by congruence].
      * rewrite get_delete_eq, Hq. simpl. repeat split.
        intros key' Hne. rewrite get_delete_ne by congruence. reflexivity.
    + rewrite get_set_eq. simpl. repeat split.
      intros key' Hne. rewrite get_set_ne by congruence. reflexivity.
  - rewrite (wf_no_orphan_queue this key Hreach Hg). simpl.
    rewrite (fetchMock_missing _ _ _ Hv Hg). simpl. split; reflexivity.
Qed.

(** A once-mock with a persistent one behind it: the dispatch leaves the
    persistent one alone at the front. *)
Lemma X4_dispatch_serves_head_witness :
  let first := Some (mkMockOpts (JNum 1) None None None (Some true)) in
  let st := exec (CallRegister GET (JStr "/a") None)
              (exec (CallRegister GET (JStr "/a") first)
                 (new_FetchMock (mkFetchMockOpts None))) in
  entries_of "[GET] /a" (exec (CallFetch "/a" None) st) = [new_entry None].
Proof.
  intros first st.
  assert (reachable st) as Hst by (do 2 apply reach_call; apply reach_new).
  exact (proj2 (proj1 (X4_dispatch_serves_head st "/a" None Hst eq_refl))).
Defined.

End PerKeyQueue.

(** ** Persistent mocks *)

Section Persistent.
Import JsMap JsMapFacts.

Lemma set_same {V} (k : string) (v : V) (m : list (string * V)) :
  get k m = Some v -> set k v m = m.
Proof.
  induction m as [|[k' v'] m IH]; simpl; [discriminate|].
  destruct (decide (k = k')) as [->|Hne].
  - now intros [= ->].
  - intros H. now rewrite IH.
Qed.

Lemma set_set {V} (k : string) (v v' : V) (m : list (string * V)) :
  set k v (set k v' m) = set k v m.
Proof.
  induction m as [|[k0 v0] m IH]; simpl.
  - now rewrite decide_True.
  - destruct (decide (k = k0)) as [->|Hne]; simpl.
    + now rewrite decide_True.
    + rewrite decide_False by assumption. now rewrite IH.
Qed.

(** A persistent entry that has already answered is a fixed point of
    dispatch. *)
Lemma fetchMock_persistent_used url init this e :
  validateMethod (resolved_method init) = true ->
  get (getKey (resolved_method init) url) (mocks this) = Some e ->
  default false (once (entry_opts e)) = false ->
  isUsed e = true ->
  fetchMock url init this
  = (Returned (synthesize (resolved_method init) (entry_opts e)), this).
Proof.
  intros Hv Hg Honce Hu. rewrite (fetchMock_hit _ _ _ e Hv Hg), Honce.
  rewrite (set_used_id e Hu), (set_same _ _ _ Hg). now destruct this.
Qed.

Lemma fetch_times_persistent_used n url init this e :
  validateMethod (resolved_method init) = true ->
  get (getKey (resolved_method init) url) (mocks this) = Some e ->
  default false (once (entry_opts e)) = false ->
  isUsed e = true ->
  fetch_times n url init this
  = (repeat (Returned (synthesize (resolved_method init) (entry_opts e))) n, this).
Proof.
  intros Hv Hg Honce Hu. induction n as [|n IH]; [reflexivity|].
  cbn [fetch_times repeat].
  now rewrite (fetchMock_persistent_used _ _ _ e Hv Hg Honce Hu), IH.
Qed.

Lemma fetch_times_persistent n url init this e :
  validateMethod (resolved_method init) = true ->
  get (getKey (resolved_method init) url) (mocks this) = Some e ->
  default false (once (entry_opts e)) = false ->
  fetch_times (S n) url init this
  = (repeat (Returned (synthesize (resolved_method init) (entry_opts e))) (S n),
     {| baseUrl := baseUrl this;
        mocks := set (getKey (resolved_method init) url) (set_used e) (mocks this);
        mockQueue := mockQueue this |}).
Proof.
  intros Hv Hg Honce. cbn [fetch_times repeat].
  rewrite (fetchMock_hit _ _ _ e Hv Hg), Honce.
  rewrite (fetch_times_persistent_used n url init _ (set_used e));
    try assumption; try reflexivity.
  simpl. apply get_set_eq.
Qed.

(** X5. Once a persistent entry (once absent or false) is the active entry
    of a key, every later dispatch to that key returns the response built
    from it; the first one marks it used and nothing else ever changes, so
    whatever is queued behind it is never served. *)
Theorem X5_persistent_catch_all (this : FetchMock) (url : string)
    (init : option RequestInit) (e : MockEntry) (n : nat) :
  validateMethod (resolved_method init) = true ->
  get (getKey (resolved_method init) url) (mocks this) = Some e ->
  default false (once (entry_opts e)) = false ->
  fetch_times (S n) url init this
  = (repeat (Returned (synthesize (resolved_method init) (entry_opts e))) (S n),
     {| baseUrl := baseUrl this;
        mocks := set (getKey (resolved_method init) url)
                   {| entry_opts := entry_opts e; isUsed := true |} (mocks this);
        mockQueue := mockQueue this |}).
Proof.
  intros Hv Hg Honce. cbn [fetch_times repeat].
  rewrite (fetchMock_hit _ _ _ e Hv Hg), Honce.
  rewrite (fetch_times_persistent_used n url init _ (set_used e)).
  - reflexivity.
  - exact Hv.
  - simpl. apply get_set_eq.
  - exact Honce.
  - reflexivity.
Qed.

(** A persistent mock with a once-mock queued behind it: three dispatches,
    three times the first response, and the queue is as it was. *)
Lemma X5_persistent_catch_all_witness :
  let behind := Some (mkMockOpts (JNum 2) None None None (Some true)) in
  let st := exec (CallRegister GET (JStr "/a") behind)
              (exec (CallRegister GET (JStr "/a") None)
                 (new_FetchMock (mkFetchMockOpts None))) in
  (fetch_times 3 "/a" None st).1 = repeat (Returned (synthesize "GET" no_opts)) 3
  /\ mockQueue (fetch_times 3 "/a" None st).2 = mockQueue st.
Proof.
  intros behind st.
  rewrite (X5_persistent_catch_all st "/a" None (new_entry None) 2
             eq_refl eq_refl eq_refl).
  split; reflexivity.
Defined.

(** X6. Registering, under a free key, a list of once-mocks and then one
    persistent mock gives: the once-mocks answer the first dispatches in
    registration order, and every dispatch after them gets the persistent
    response. *)
Theorem X6_once_then_persistent (this : FetchMock) (method : HttpMethod)
    (url : JsValue) (init : option RequestInit) (specs : list MockOpts)
    (last : MockOpts) (n : nat) :
  let dispatchUrl := full_url this (as_string url) in
  let key := getKey (method_name method) dispatchUrl in
  Forall (fun o => once o = Some true) specs ->
  default false (once last) = false ->
  validateUrl url = None ->
  resolved_method init = method_name method ->
  get key (mocks this) = None ->
  get key (mockQueue this) = None ->
  (fetch_times (length specs + n) dispatchUrl init
     (register_all method url (specs ++ [last]) this)).1
  = map (fun o => Returned (synthesize (method_name method) o)) specs
    ++ repeat (Returned (synthesize (method_name method) last)) n.
Proof.
  intros dispatchUrl key Honce Hlast Hvalid Hinit Hactive Hqueued.
  subst dispatchUrl key.
  set (key := getKey (method_name method) (full_url this (as_string url))) in *.
  pose proof (register_all_loaded this method url Hvalid Hactive Hqueued
                (specs ++ [last]) []) as Hreg.
  rewrite map_app in Hreg. fold key in Hreg.
  change (loaded this key []) with this in Hreg. cbn [map app] in Hreg.
  assert (Forall (fun e => default false (once (entry_opts e)) = true)
            (map (fun o => new_entry (Some o)) specs)) as Hentries.
  { apply Forall_map. eapply Forall_impl; [exact Honce|].
    intros o Ho. simpl. now rewrite Ho. }
  pose proof (fetch_times_loaded this method url Hactive Hqueued init
                (map (fun o => new_entry (Some o)) specs) [new_entry (Some last)]
                Hinit Hentries) as Hrun.
  rewrite length_map in Hrun. fold key in Hrun.
  rewrite fetch_times_add, Hreg, Hrun. cbn [fst snd]. rewrite map_map. f_equal.
  destruct n as [|n]; [reflexivity|].
  rewrite (fetch_times_persistent n _ init _ (new_entry (Some last))).
  - now rewrite Hinit.
  - rewrite Hinit. apply validateMethod_method_name.
  - rewrite Hinit. fold key. simpl. now apply get_snoc.
  - exact Hlast.
Qed.

(** The sequence of the README: one once-mock, then a persistent 404. *)
Lemma X6_once_then_persistent_witness :
  let first := mkMockOpts (JStr "Ada") None None None (Some true) in
  let last := mkMockOpts JUndefined (Some 404%Z) None None None in
  (fetch_times 4 "https://api.example.com/users/1" None
     (register_all GET (JStr "/users/1") [first; last]
        (new_FetchMock (mkFetchMockOpts (Some "https://api.example.com"%string))))).1
  = [Returned (synthesize "GET" first); Returned (synthesize "GET" last);
     Returned (synthesize "GET" last); Returned (synthesize "GET" last)].
Proof.
  intros first last.
  refine (X6_once_then_persistent
            (new_FetchMock (mkFetchMockOpts (Some "https://api.example.com"%string)))
            GET (JStr "/users/1") None [first] last 3
            _ eq_refl eq_refl eq_refl eq_refl eq_refl).
  repeat constructor.
Defined.

End Persistent.

(** ** Reset *)

Section ResetFacts.
Import JsMap JsMapFacts.


End ResetFacts.

(** ** Urls at registration and at dispatch *)

Section Urls.
Import JsMap JsMapFacts.

Lemma append_neq_r (a p : string) : a <> ""%string -> (a ++ p)%string <> p.
Proof.
  intros Ha H. apply (f_equal String.length) in H. rewrite length_append in H.
  destruct a; [congruence | simpl in H; lia].
Qed.

Lemma joinBaseUrl_proper_prefix (base path : string) :
  base <> ""%string -> base <> "/"%string ->
  exists prefix, prefix <> ""%string /\ joinBaseUrl base path = (prefix ++ path)%string.
Proof.
  intros Hne Hslash. destruct (endsWith base "/") eqn:He.
  - apply endsWith_slash_spec in He as [b ->]. exists b.
    split; [|apply joinBaseUrl_slash]. intros ->. now apply Hslash.
  - exists base. split; [assumption|]. apply joinBaseUrl_no_slash.
    intros b ->. rewrite (proj2 (endsWith_slash_spec _)) in He; [discriminate|].
    now exists b.
Qed.

(** X8. An absolute url (http:// or https://) is filed under itself: the
    base URL of the instance plays no part. *)
Theorem X8_absolute_url_verbatim (this : FetchMock) (method : HttpMethod)
    (scheme rest : string) (opts : option MockOpts) :
  scheme = "http://"%string \/ scheme = "https://"%string ->
  let url := (scheme ++ rest)%string in
  outcome_of (mockRequest method (JStr url) opts) this = Returned tt
  /\ filed_under (getKey (method_name method) url) (new_entry opts) this
       (state_after (mockRequest method (JStr url) opts) this).
Proof.
  intros Hscheme url.
  assert (validateUrl (JStr url) = None) as Hv.
  { rewrite validateUrl_string.
    destruct Hscheme as [-> | ->]; subst url; vm_compute; now destruct rest. }
  assert (full_url this url = url) as Hfull.
  { unfold full_url. destruct Hscheme as [-> | ->]; reflexivity. }
  split.
  - unfold outcome_of. now rewrite (mockRequest_valid _ _ _ _ Hv).
  - rewrite <- Hfull at 1. now apply (filed_under_valid method (JStr url)).
Qed.

(** The test "Works with absolute URLs even with baseUrl set". *)
Lemma X8_absolute_url_verbatim_witness :
  get "[GET] https://other-api.com/data"
    (mocks (state_after (mockRequest GET (JStr "https://other-api.com/data") None)
              (new_FetchMock (mkFetchMockOpts (Some "https://api.example.com"%string)))))
  = Some (new_entry None).
Proof.
  exact (proj1 (proj2 (X8_absolute_url_verbatim
                         (new_FetchMock (mkFetchMockOpts (Some "https://api.example.com"%string)))
                         GET "https://" "other-api.com/data" None
                         (or_intror eq_refl)))).
Defined.

(** X9. [fetchMock] does not apply the base URL.  When the base URL is
    neither empty nor "/", a mock registered as the path "/rest" is not found
    by a dispatch of that same path (unless the path is mocked under its own
    key already): the dispatch throws "No mock found". *)
Theorem X9_dispatch_ignores_base_url (this : FetchMock) (method : HttpMethod)
    (rest : string) (opts : option MockOpts) (init : option RequestInit) :
  let path := ("/" ++ rest)%string in
  let after := exec (CallRegister method (JStr path) opts) this in
  baseUrl this <> ""%string ->
  baseUrl this <> "/"%string ->
  resolved_method init = method_name method ->
  get (getKey (method_name method) path) (mocks this) = None ->
  fetchMock path init after
  = (Thrown (Error (no_mock_message (getKey (method_name method) path)
                      (join ", " (keys (mocks after) ++ keys (mockQueue after))))),
     after).
Proof.
  intros path after Hne Hslash Hinit Hfree.
  pose proof (validateUrl_root_relative rest) as Hv. fold path in Hv.
  assert (get (getKey (method_name method) path) (mocks after) = None) as Hafter.
  { subst after. simpl. unfold state_after.
    rewrite (mockRequest_valid _ _ _ _ Hv). simpl.
    destruct (has _ (mocks this)); simpl; [assumption|].
    rewrite get_set_ne; [assumption|].
    intros Heq. apply getKey_inj_url in Heq.
    assert (full_url this path = joinBaseUrl (baseUrl this) path) as Hfull.
    { unfold full_url, path. change ("/" ++ rest)%string with (String "/" rest).
      unfold startsWith. simpl. now destruct rest. }
    rewrite Hfull in Heq.
    destruct (joinBaseUrl_proper_prefix (baseUrl this) path Hne Hslash)
      as (prefix & Hprefix & Hjoin).
    rewrite Hjoin in Heq. now apply (append_neq_r prefix path). }
  rewrite <- Hinit in Hafter |- *.
  apply fetchMock_missing; [|exact Hafter].
  rewrite Hinit. apply validateMethod_method_name.
Qed.

(** The Quick Start of the first README with a relative dispatch instead. *)
Lemma X9_dispatch_ignores_base_url_witness :
  outcome_of (fetchMock "/users/1" None)
    (exec (CallRegister GET (JStr "/users/1") None)
       (new_FetchMock (mkFetchMockOpts (Some "https://api.example.com"%string))))
  = Thrown (Error "No mock found for [GET] /users/1. Available mocks: [GET] https://api.example.com/users/1").
Proof.
  refine (f_equal fst
            (X9_dispatch_ignores_base_url
               (new_FetchMock (mkFetchMockOpts (Some "https://api.example.com"%string)))
               GET "users/1" None None _ _ eq_refl eq_refl));
    discriminate.
Defined.

(** X10. A registration never changes what the next dispatch to an occupied
    key returns: the active entry answers as before, whatever was
    registered, under the same key or another one. *)
Theorem X10_registration_does_not_preempt (this : FetchMock) (method : HttpMethod)
    (newUrl : JsValue) (opts : option MockOpts) (url : string)
    (init : option RequestInit) (e : MockEntry) :
  validateMethod (resolved_method init) = true ->
  get (getKey (resolved_method init) url) (mocks this) = Some e ->
  outcome_of (fetchMock url init) (exec (CallRegister method newUrl opts) this)
  = outcome_of (fetchMock url init) this
  /\ outcome_of (fetchMock url init) this
     = Returned (synthesize (resolved_method init) (entry_opts e)).
Proof.
  intros Hv Hg.
  assert (get (getKey (resolved_method init) url)
            (mocks (exec (CallRegister method newUrl opts) this)) = Some e) as Hg'.
  { apply active_kept; [assumption | discriminate | intros; discriminate]. }
  unfold outcome_of.
  rewrite (fetchMock_hit _ _ _ e Hv Hg'), (fetchMock_hit _ _ _ e Hv Hg).
  split; reflexivity.
Qed.

Lemma X10_registration_does_not_preempt_witness :
  let st := exec (CallRegister GET (JStr "/a")
                    (Some (mkMockOpts (JNum 1) None None None None)))
              (new_FetchMock (mkFetchMockOpts None)) in
  outcome_of (fetchMock "/a" None)
    (exec (CallRegister GET (JStr "/a")
             (Some (mkMockOpts (JNum 2) None None None None))) st)
  = outcome_of (fetchMock "/a" None) st.
Proof.
  intros st.
  exact (proj1 (X10_registration_does_not_preempt st GET (JStr "/a")
                  (Some (mkMockOpts (JNum 2) None None None None)) "/a" None
                  (new_entry (Some (mkMockOpts (JNum 1) None None None None)))
                  eq_refl eq_refl)).
Defined.

End Urls.

(** ** The tables of a reachable instance *)

Section Tables.
Import JsMap JsMapFacts.

Lemma keys_exec_Forall (P : string -> Prop) (this : FetchMock) (c : Call) :
  (forall m u, P (getKey (method_name m) u)) ->
  Forall P (keys (mocks this)) ->
  Forall P (keys (mocks (exec c this))).
Proof.
  intros Hnew Hall.
  destruct c as [method url opts|url init| |]; simpl; unfold state_after.
  - destruct (validateUrl url) as [message|] eqn:Hv.
    { now rewrite (mockRequest_invalid _ _ _ _ _ Hv). }
    rewrite (mockRequest_valid _ _ _ _ Hv). simpl.
    destruct (has _ (mocks this)); simpl; [assumption|].
    now apply Forall_keys_set.
  - destruct (validateMethod (resolved_method init)) eqn:Hv;
      [|now rewrite fetchMock_unsupported].
    set (key := getKey (resolved_method init) url).
    destruct (get key (mocks this)) as [e|] eqn:Hg;
      [|now rewrite fetchMock_missing].
    assert (P key) as Hkey.
    { rewrite Forall_forall in Hall. apply Hall. now apply get_Some_keys in Hg. }
    rewrite (fetchMock_hit _ _ _ e Hv Hg). simpl. fold key.
    destruct (default false (once (entry_opts e))); simpl.
    + destruct (get key (mockQueue this)) as [[|nextMock rest]|]; simpl;
        try (now apply Forall_keys_delete).
      apply Forall_keys_set; [assumption | now apply Forall_keys_delete].
    + now apply Forall_keys_set.
  - constructor.
  - now rewrite assertAllMocksUsed_spec.
Qed.

(** X11. On an instance a test can build: no key occurs twice in the active
    table or in the overflow table; every key with an overflow queue also
    has an active entry; and every key is the key of one of the seven
    methods and some url. *)
Theorem X11_tables_well_keyed (this : FetchMock) :
  reachable this ->
  NoDup (keys (mocks this))
  /\ NoDup (keys (mockQueue this))
  /\ (forall key, key ∈ keys (mockQueue this) -> key ∈ keys (mocks this))
  /\ Forall (fun key => exists (m : HttpMethod) (u : string),
                          key = getKey (method_name m) u)
       (keys (mocks this)).
Proof.
  intros Hreach. pose proof (reachable_wf this Hreach) as [Hm Hq Hqueue _ _].
  repeat split; [exact Hm | exact Hq | |].
  - intros key Hin. destruct (keys_get_Some key _ Hin) as [q Hk].
    destruct (Hqueue key q Hk) as (_ & [e He] & _). now apply get_Some_keys in He.
  - clear Hm Hq Hqueue. induction Hreach as [opts|c st _ IH]; [constructor|].
    apply keys_exec_Forall; [|exact IH]. intros m u. now exists m, u.
Qed.

Lemma X11_tables_well_keyed_witness :
  let st := exec (CallFetch "/a" None)
              (exec (CallRegister GET (JStr "/a") None)
                 (exec (CallRegister GET (JStr "/a")
                          (Some (mkMockOpts JNull None None None (Some true))))
                    (new_FetchMock (mkFetchMockOpts None)))) in
  NoDup (keys (mocks st)) /\ NoDup (keys (mockQueue st)).
Proof.
  intros st.
  assert (reachable st) as Hst by (do 3 apply reach_call; apply reach_new).
  destruct (X11_tables_well_keyed st Hst) as (H1 & H2 & _).
  exact (conj H1 H2).
Defined.

Lemma keys_delete_filter {V} (k : string) (m : list (string * V)) :
  keys (delete k m) = filter (fun k' => k' <> k) (keys m).
Proof.
  induction m as [|[k' v'] m IH]; simpl; [reflexivity|].
  rewrite filter_cons. simpl.
  destruct (decide (k = k')) as [->|Hne].
  - rewrite decide_False by (intros H; now apply H). exact IH.
  - rewrite decide_True by congruence. simpl. now rewrite IH.
Qed.

(** X12. The order of the active table, which is the order the "Available
    mocks" list shows: a dispatch that matches a persistent entry leaves the
    order alone; one that matches a once-entry takes the key out, and when a
    queued entry is promoted the key comes back at the end of the table. *)
Theorem X12_active_key_order (this : FetchMock) (url : string)
    (init : option RequestInit) (e : MockEntry) :
  let key := getKey (resolved_method init) url in
  validateMethod (resolved_method init) = true ->
  get key (mocks this) = Some e ->
  keys (mocks (exec (CallFetch url init) this))
  = if default false (once (entry_opts e)) then
      match get key (mockQueue this) with
      | Some (_ :: _) => filter (fun k => k <> key) (keys (mocks this)) ++ [key]
      | _ => filter (fun k => k <> key) (keys (mocks this))
      end
    else keys (mocks this).
Proof.
  intros key Hv Hg. simpl. unfold state_after.
  rewrite (fetchMock_hit _ _ _ e Hv Hg). simpl. fold key.
  destruct (default false (once (entry_opts e))); simpl.
  - destruct (get key (mockQueue this)) as [[|nextMock rest]|]; simpl;
      try apply keys_delete_filter.
    rewrite keys_set_absent; [now rewrite keys_delete_filter|].
    apply get_None_keys, get_delete_eq.
  - apply keys_set_present. now apply get_Some_keys in Hg.
Qed.

(** Two keys, the first one with a second once-mock queued: after a dispatch
    the first key is listed last. *)
Lemma X12_active_key_order_witness :
  let once_opts := Some (mkMockOpts JNull None None None (Some true)) in
  let st := exec (CallRegister GET (JStr "/a") once_opts)
              (exec (CallRegister GET (JStr "/b") None)
                 (exec (CallRegister GET (JStr "/a") once_opts)
                    (new_FetchMock (mkFetchMockOpts None)))) in
  keys (mocks st) = ["[GET] /a"; "[GET] /b"]%string
  /\ keys (mocks (exec (CallFetch "/a" None) st)) = ["[GET] /b"; "[GET] /a"]%string.
Proof.
  intros once_opts st. split; [reflexivity|].
  exact (X12_active_key_order st "/a" None (new_entry once_opts) eq_refl eq_refl).
Defined.

End Tables.

(** ** Responses *)

Section Responses.

(** X13. Whatever the method and the payload, the response carries the status
    and status text of the options (200 and "OK" by default) and every
    explicit header; the only header [fetchMock] can add is Content-Type; and
    the body is null exactly when the method is HEAD or [data] is
    undefined. *)
Theorem X13_synthesize_envelope (method : string) (opts : MockOpts) :
  let r := synthesize method opts in
  let explicit := default (∅ : gmap string string) (headers opts) in
  init_status (response_init r) = default 200%Z (status opts)
  /\ init_statusText (response_init r) = default "OK"%string (statusText opts)
  /\ (forall name v, explicit !! name = Some v ->
                     init_headers (response_init r) !! name = Some v)
  /\ (forall name, name <> "Content-Type"%string ->
                   init_headers (response_init r) !! name = explicit !! name)
  /\ ((exists i, r = NewResponse None i)
      <-> method = "HEAD"%string \/ data opts = JUndefined).
Proof.
  intros r explicit. subst r. unfold synthesize. fold explicit.
  destruct (decide (method = "HEAD"%string)) as [Hhead|Hhead].
  { repeat split; auto. eexists; reflexivity. }
  destruct (data opts) eqn:Hdata; simpl;
    try (repeat split; auto;
         [intros [i Hi]; discriminate Hi | intros [?|?]; congruence]).
  - repeat split; auto. eexists; reflexivity.
  - repeat split.
    + intros name v Hn. rewrite text_headers_lookup. now rewrite Hn.
    + intros name Hne. rewrite text_headers_lookup.
      destruct (explicit !! name); [reflexivity|]. now rewrite decide_False.
    + intros [i Hi]. discriminate Hi.
    + intros [?|?]; congruence.
Qed.

End Responses.

(** ** Which entry verification reports *)

Section FirstUnused.

(** X14. [assertAllMocksUsed] stops at the first unused entry in the order
    active table, then overflow queues, and the failure carries the label of
    that entry's key. *)
Theorem X14_first_unused_reported (this : FetchMock)
    (before after : list (string * MockEntry)) (key : string) (e : MockEntry) :
  all_entries this = before ++ (key, e) :: after ->
  Forall (fun ke => isUsed ke.2 = true) before ->
  isUsed e = false ->
  assertAllMocksUsed this
  = (Thrown (ExpectFailed ("Fetch mock " ++ key ++ " was not used")), this).
Proof.
  intros Hall Hbefore Hu. rewrite assertAllMocksUsed_spec, Hall, find_app.
  assert (List.find is_unused before = None) as ->.
  { apply find_None_iff. intros ke Hin. rewrite Forall_forall in Hbefore.
    unfold is_unused. rewrite (Hbefore ke); [reflexivity|].
    now apply list_elem_of_In. }
  simpl. unfold is_unused. simpl. now rewrite Hu.
Qed.

(** A used mock of /a, then unused mocks of /b and /c: /b is reported. *)
Lemma X14_first_unused_reported_witness :
  let st := exec (CallFetch "/a" None)
              (exec (CallRegister GET (JStr "/c") None)
                 (exec (CallRegister GET (JStr "/b") None)
                    (exec (CallRegister GET (JStr "/a") None)
                       (new_FetchMock (mkFetchMockOpts None))))) in
  outcome_of assertAllMocksUsed st
  = Thrown (ExpectFailed "Fetch mock [GET] /b was not used").
Proof.
  intros st.
  refine (f_equal fst
            (X14_first_unused_reported st
               [("[GET] /a"%string, {| entry_opts := no_opts; isUsed := true |})]
               [("[GET] /c"%string, new_entry None)]
               "[GET] /b" (new_entry None) eq_refl _ eq_refl)).
  repeat constructor.
Defined.

End FirstUnused.

(** ** The earlier revision *)

Section EarlierRevision.
Import JsMap JsMapFacts.

Lemma validateMethod_upper (s : string) :
  validateMethod s = true -> toUpperCase s = s.
Proof.
  unfold validateMethod, validMethods. rewrite bool_decide_eq_true.
  rewrite !elem_of_cons, elem_of_nil.
  intros [->|[->|[->|[->|[->|[->|[->|[]]]]]]]]; reflexivity.
Qed.

(** X15. In the revision without [joinBaseUrl], a root-relative path is
    filed under the base URL and the path put together as they are, trailing
    slash included; registration is the same as in the current revision for
    every url that is not root-relative, and for every base URL that does not
    end in a slash. *)
Theorem X15_rev0_registration (this : FetchMock) (method : HttpMethod)
    (rest : string) (opts : option MockOpts) :
  let path := ("/" ++ rest)%string in
  outcome_of (Rev0.mockRequest method (JStr path) opts) this = Returned tt
  /\ filed_under (getKey (method_name method) (baseUrl this ++ path))
       (new_entry opts) this
       (state_after (Rev0.mockRequest method (JStr path) opts) this)
  /\ ((forall b, baseUrl this <> (b ++ "/")%string) ->
      Rev0.mockRequest method (JStr path) opts this
      = mockRequest method (JStr path) opts this)
  /\ (forall url, startsWith (as_string url) "/" = false ->
                  Rev0.mockRequest method url opts this
                  = mockRequest method url opts this).
Proof.
  intros path.
  assert (Rev0.mockRequest method (JStr path) opts this
          = (Returned tt,
             if has (getKey (method_name method) (baseUrl this ++ path)) (mocks this)
             then {| baseUrl := baseUrl this;
                     mocks := mocks this;
                     mockQueue :=
                       set (getKey (method_name method) (baseUrl this ++ path))
                         (default [] (get (getKey (method_name method)
                                             (baseUrl this ++ path))
                                        (mockQueue this)) ++ [new_entry opts])
                         (mockQueue this) |}
             else {| baseUrl := baseUrl this;
                     mocks := set (getKey (method_name method) (baseUrl this ++ path))
                                (new_entry opts) (mocks this);
                     mockQueue := mockQueue this |})) as Hrun.
  { assert (startsWith path "/" = true) as Hrel.
    { apply startsWith_spec. now exists rest. }
    unfold Rev0.mockRequest.
    rewrite (validateUrl_root_relative rest : validateUrl (JStr path) = None).
    unfold_M. cbv beta iota. cbn [as_string]. rewrite Hrel.
    now destruct (has _ (mocks this)). }
  split; [|split; [|split]].
  - unfold outcome_of. now rewrite Hrun.
  - unfold state_after, filed_under. rewrite Hrun. simpl.
    destruct (has _ (mocks this)); simpl;
      (split; [reflexivity || apply get_set_eq | reflexivity || apply get_set_eq]).
  - apply rev0_mockRequest_agrees.
  - intros url Hrel. unfold Rev0.mockRequest, mockRequest.
    destruct (validateUrl url); [reflexivity|].
    unfold_M. simpl. now rewrite Hrel.
Qed.

(** X16. In the revision without [toUpperCase], the method is taken as it is
    written: when it is one of the seven upper-case names the dispatch is the
    one of the current revision, and any other spelling is rejected as
    unsupported, named as it was written. *)
Theorem X16_rev0_dispatch_case_sensitive (this : FetchMock) (url : string)
    (init : option RequestInit) :
  let written := default DEFAULT_METHOD (init ≫= req_method) in
  if validateMethod written
  then Rev0.fetchMock url init this = fetchMock url init this
  else Rev0.fetchMock url init this
       = (Thrown (Error (unsupported_message written)), this).
Proof.
  intros written. destruct (validateMethod written) eqn:Hv.
  - apply rev0_fetchMock_agrees. now apply validateMethod_upper.
  - unfold Rev0.fetchMock. fold written. now rewrite Hv.
Qed.

End EarlierRevision.

Lemma X15_rev0_registration_witness :
  Rev0.mockRequest GET (JStr "/users") None
    (new_FetchMock (mkFetchMockOpts (Some "https://api.example.com"%string)))
  = mockRequest GET (JStr "/users") None
      (new_FetchMock (mkFetchMockOpts (Some "https://api.example.com"%string))).
Proof.
  refine (proj1 (proj2 (proj2 (X15_rev0_registration
                                 (new_FetchMock (mkFetchMockOpts (Some "https://api.example.com"%string)))
                                 GET "users" None))) _).
  intros b Hb. apply (f_equal (fun s => endsWith s "/")) in Hb.
  rewrite (proj2 (endsWith_slash_spec (b ++ "/")%string)) in Hb by (now exists b).
  discriminate Hb.
Defined.

(** ** Verification after dispatches *)

Section VerifyAfterDispatch.
Import JsMap JsMapFacts.

Lemma assert_passes_iff (this : FetchMock) :
  outcome_of assertAllMocksUsed this = Returned tt
  <-> forall ke, In ke (all_entries this) -> isUsed ke.2 = true.
Proof.
  unfold outcome_of. rewrite assertAllMocksUsed_spec. simpl.
  destruct (List.find is_unused (all_entries this)) as [ke|] eqn:E.
  - split; [discriminate|]. intros H.
    apply find_some in E as [Hin Hu]. unfold is_unused in Hu.
    rewrite (H ke Hin) in Hu. discriminate.
  - split; [|reflexivity]. intros _ ke Hin.
    apply (proj1 (find_None_iff _ _) E) in Hin.
    unfold is_unused in Hin. now destruct (isUsed ke.2).
Qed.

Lemma assert_fails_of_unused (this : FetchMock) (key : string) (e : MockEntry) :
  In (key, e) (all_entries this) -> isUsed e = false ->
  exists x, outcome_of assertAllMocksUsed this = Thrown x.
Proof.
  intros Hin Hu.
  destruct (outcome_of assertAllMocksUsed this) as [[]|x] eqn:E; [|now exists x].
  pose proof (proj1 (assert_passes_iff this) E (key, e) Hin) as E'.
  simpl in E'. congruence.
Qed.

Lemma get_In {V} (k : string) (v : V) (m : list (string * V)) :
  get k m = Some v -> In (k, v) m.
Proof.
  induction m as [|[k' v'] m IH]; simpl; [discriminate|].
  destruct (decide (k = k')) as [->|Hne].
  - intros [= ->]. now left.
  - intros H. right. now apply IH.
Qed.

(** X17. The cycle of the test suite.  On an instance a test can build where
    verification passes, registering a mock under a key that has no active
    entry and dispatching to it once returns that mock's response and leaves
    an instance where verification passes again, whether the mock is once or
    persistent. *)
Theorem X17_register_fetch_verify (this : FetchMock) (method : HttpMethod)
    (url : JsValue) (opts : option MockOpts) (init : option RequestInit) :
  let dispatchUrl := full_url this (as_string url) in
  let key := getKey (method_name method) dispatchUrl in
  let registered := exec (CallRegister method url opts) this in
  reachable this ->
  outcome_of assertAllMocksUsed this = Returned tt ->
  validateUrl url = None ->
  resolved_method init = method_name method ->
  get key (mocks this) = None ->
  outcome_of (fetchMock dispatchUrl init) registered
  = Returned (synthesize (method_name method) (default no_opts opts))
  /\ outcome_of assertAllMocksUsed (exec (CallFetch dispatchUrl init) registered)
     = Returned tt.
Proof.
  intros dispatchUrl key registered Hreach Hpass Hvalid Hinit Hactive.
  apply reachable_wf in Hreach.
  pose proof (wf_no_orphan_queue this key Hreach Hactive) as Hqueued.
  subst dispatchUrl registered.
  set (key' := getKey (method_name method) (full_url this (as_string url))) in *.
  assert (exec (CallRegister method url opts) this = loaded this key' [new_entry opts])
    as ->.
  { exact (mockRequest_loaded this method url Hvalid Hactive Hqueued opts []). }
  destruct (default false (once (entry_opts (new_entry opts)))) eqn:Honce.
  - cbn [exec]. unfold outcome_of, state_after.
    pose proof (fetchMock_loaded this method url Hactive Hqueued init
                  (new_entry opts) [] Hinit Honce) as Hrun.
    fold key' in Hrun. rewrite Hrun. simpl. split; [reflexivity | exact Hpass].
  - assert (get (getKey (resolved_method init) (full_url this (as_string url)))
              (mocks (loaded this key' [new_entry opts])) = Some (new_entry opts))
      as Hg.
    { rewrite Hinit. fold key'. simpl. now apply get_snoc. }
    assert (validateMethod (resolved_method init) = true) as Hv.
    { rewrite Hinit. apply validateMethod_method_name. }
    cbn [exec]. unfold outcome_of at 1, state_after.
    rewrite (fetchMock_hit _ _ _ (new_entry opts) Hv Hg), Honce, Hinit.
    split; [reflexivity|].
    apply (proj2 (assert_passes_iff _)). intros [k e] Hin.
    pose proof (proj1 (assert_passes_iff this) Hpass) as Hall.
    unfold all_entries in Hin. cbn [mocks mockQueue loaded snd] in Hin.
    fold key' in Hin. rewrite (set_snoc _ _ _ _ Hactive) in Hin.
    rewrite !in_app_iff in Hin. destruct Hin as [[Hin|Hin]|Hin].
    + apply (Hall (k, e)). unfold all_entries. apply in_app_iff. now left.
    + destruct Hin as [[= <- <-]|[]]. reflexivity.
    + apply (Hall (k, e)). unfold all_entries. apply in_app_iff. now right.
Qed.

(** A once-mock on a new instance: fetched, then verified. *)
Lemma X17_register_fetch_verify_witness :
  let opts := Some (mkMockOpts (JNum 1) None None None (Some true)) in
  let st := new_FetchMock (mkFetchMockOpts (Some "https://api.example.com"%string)) in
  outcome_of assertAllMocksUsed
    (exec (CallFetch "https://api.example.com/data" None)
       (exec (CallRegister GET (JStr "/data") opts) st))
  = Returned tt.
Proof.
  intros opts st.
  exact (proj2 (X17_register_fetch_verify st GET (JStr "/data") opts None
                  (reach_new _) eq_refl eq_refl eq_refl eq_refl)).
Defined.

(** X18. A mock registered under a key whose active entry is persistent is
    never served, so it stays unused: after that registration verification
    fails, and it still fails after any number of dispatches to the key. *)
Theorem X18_starved_mock_fails_verification (this : FetchMock)
    (method : HttpMethod) (url : JsValue) (opts : option MockOpts)
    (init : option RequestInit) (e : MockEntry) (n : nat) :
  let dispatchUrl := full_url this (as_string url) in
  let key := getKey (method_name method) dispatchUrl in
  let registered := exec (CallRegister method url opts) this in
  validateUrl url = None ->
  resolved_method init = method_name method ->
  get key (mocks this) = Some e ->
  default false (once (entry_opts e)) = false ->
  exists x,
    outcome_of assertAllMocksUsed (fetch_times n dispatchUrl init registered).2
    = Thrown x.
Proof.
  intros dispatchUrl key registered Hvalid Hinit Hg Honce.
  subst dispatchUrl registered.
  set (key' := getKey (method_name method) (full_url this (as_string url))) in *.
  cbn [exec]. unfold state_after. rewrite (mockRequest_valid _ _ _ _ Hvalid).
  cbn [snd]. fold key'.
  assert (has key' (mocks this) = true) as -> by (apply has_true; exists e; exact Hg).
  set (queue := default [] (get key' (mockQueue this)) ++ [new_entry opts]).
  set (st := {| baseUrl := baseUrl this; mocks := mocks this;
                mockQueue := set key' queue (mockQueue this) |}).
  assert (mockQueue (fetch_times n (full_url this (as_string url)) init st).2
          = set key' queue (mockQueue this)) as Hq.
  { destruct n as [|n]; [reflexivity|].
    rewrite (fetch_times_persistent n _ init st e); try assumption.
    - reflexivity.
    - rewrite Hinit. apply validateMethod_method_name.
    - rewrite Hinit. fold key'. exact Hg. }
  apply (assert_fails_of_unused _ key' (new_entry opts)); [|reflexivity].
  unfold all_entries. apply in_app_iff. right. rewrite Hq.
  apply in_flat_map. exists (key', queue). split.
  - apply get_In, get_set_eq.
  - apply in_map. unfold queue. apply in_app_iff. right. now left.
Qed.

(** A persistent mock, one more registered behind it, five dispatches. *)
Lemma X18_starved_mock_fails_verification_witness :
  let st := exec (CallRegister GET (JStr "/a") None)
              (new_FetchMock (mkFetchMockOpts None)) in
  exists x,
    outcome_of assertAllMocksUsed
      (fetch_times 5 "/a" None (exec (CallRegister GET (JStr "/a") None) st)).2
    = Thrown x.
Proof.
  intros st.
  exact (X18_starved_mock_fails_verification st GET (JStr "/a") None None
           (new_entry None) 5 eq_refl eq_refl eq_refl eq_refl).
Defined.

End VerifyAfterDispatch.
